(** * Job Notification Tracker: match scoring, view engine, digest, saved set

    A shallow embedding of the algorithmic core of [src/App.tsx]:
    [splitCommaSeparated], [computeMatchScore], [extractSalaryValue], the
    [filteredJobs] memo of [JobsDashboard], [generateDigest] of [DigestPage],
    and [handleSaveJob] / [hasPreferences] of [App].

    Conventions of the embedding.
    - A JavaScript string is a [string] of ASCII characters; [toLowerCase]
      and [trim] are modelled on that range (characters above 127 are left
      alone and are never white space).
    - A JavaScript number that the code only ever uses as an integer (ids,
      scores, day counts, salary values) is a [Z]; arithmetic is exact, as
      it is in JavaScript below 2^53.
    - [window.localStorage] is a finite map from keys to stored texts; a
      stored text is represented by what [JSON.parse] makes of it.
    - React state setters are explicit state passing: an event handler maps
      the component state before the event to the state after it. *)

From Stdlib Require Import ZArith Ascii String List Bool Lia Permutation Sorted.
From Stdlib Require Import DecimalString DecimalN.
From stdpp Require Import gmap strings list fin_maps.

Open Scope string_scope.
Open Scope list_scope.
Open Scope Z_scope.

(* ===================================================================== *)
(** ** JavaScript strings                                                 *)
(* ===================================================================== *)

Module JsString.

Definition charCode (c : ascii) : Z := Z.of_N (N_of_ascii c).

(** [A]..[Z] *)
Definition isUpper (c : ascii) : bool :=
  (65 <=? charCode c) && (charCode c <=? 90).

(** [\d] of a regular expression without the [u] flag: [0]..[9] *)
Definition isDigit (c : ascii) : bool :=
  (48 <=? charCode c) && (charCode c <=? 57).

(** White space stripped by [String.prototype.trim]: TAB, LF, VT, FF, CR
    and SPACE. *)
Definition isSpace (c : ascii) : bool :=
  ((9 <=? charCode c) && (charCode c <=? 13)) || (charCode c =? 32).

Definition lowerChar (c : ascii) : ascii :=
  if isUpper c then ascii_of_N (N_of_ascii c + 32) else c.

(** [s.toLowerCase()] *)
Fixpoint toLowerCase (s : string) : string :=
  match s with
  | EmptyString => EmptyString
  | String c r => String (lowerChar c) (toLowerCase r)
  end.

Fixpoint trimStart (s : string) : string :=
  match s with
  | EmptyString => EmptyString
  | String c r => if isSpace c then trimStart r else s
  end.

Fixpoint trimEnd (s : string) : string :=
  match s with
  | EmptyString => EmptyString
  | String c r =>
      match trimEnd r with
      | EmptyString => if isSpace c then EmptyString else String c EmptyString
      | r' => String c r'
      end
  end.

(** [s.trim()] *)
Definition trim (s : string) : string := trimEnd (trimStart s).

(** [s.startsWith(q)], the test [includes] makes at every index *)
Fixpoint startsWith (q s : string) : bool :=
  match q, s with
  | EmptyString, _ => true
  | String _ _, EmptyString => false
  | String a q', String b s' => Ascii.eqb a b && startsWith q' s'
  end.

(** [s.includes(q)] *)
Fixpoint includes (s q : string) : bool :=
  startsWith q s ||
  match s with
  | EmptyString => false
  | String _ r => includes r q
  end.

(** [s.split(sep)] for a one-character separator: never an empty array,
    [''.split(',')] is [['']]. *)
Fixpoint split (sep : ascii) (s : string) : list string :=
  match s with
  | EmptyString => [EmptyString]
  | String c r =>
      if Ascii.eqb c sep then EmptyString :: split sep r
      else match split sep r with
           | [] => [String c EmptyString]
           | w :: ws => String c w :: ws
           end
  end.

(** Truthiness of a string: [Boolean(s)], [if (s)], [!s] *)
Definition truthy (s : string) : bool :=
  match s with EmptyString => false | String _ _ => true end.

(** [arr.includes(x)] on an array of strings *)
Definition arrayIncludes (arr : list string) (x : string) : bool :=
  existsb (String.eqb x) arr.

End JsString.

Import JsString.

(* ===================================================================== *)
(** ** Data model                                                         *)
(* ===================================================================== *)

(** [JobMode] and [JobExperience] are imported from [./data/jobs]; their
    members are the literals the settings form enumerates. *)
Inductive JobMode := Remote | Hybrid | Onsite.
Inductive JobExperience := Fresher | Exp0to1 | Exp1to3 | Exp3to5.

(** Modelled from the spec: [JobSource] is declared in [./data/jobs], which
    is not part of the sources at hand; the spec calls it an "enum of origin
    platforms".  It is a string-literal union, so a source is the string it
    is at run time, and ['']  stands for "no source chosen" in [Filters]. *)
Definition JobSource := string.

Inductive JobStatus := NotApplied | Applied | Rejected | Selected.

#[global] Instance JobMode_eq_dec : EqDecision JobMode.
Proof. solve_decision. Defined.
#[global] Instance JobExperience_eq_dec : EqDecision JobExperience.
Proof. solve_decision. Defined.
#[global] Instance JobStatus_eq_dec : EqDecision JobStatus.
Proof. solve_decision. Defined.

(** The [Job] record of [./data/jobs], with the fields [App.tsx] reads. *)
Record Job := {
  id : Z;
  title : string;
  company : string;
  location : string;
  mode : JobMode;
  experience : JobExperience;
  salaryRange : string;
  source : JobSource;
  skills : list string;
  description : string;
  postedDaysAgo : Z;
  applyUrl : string
}.

Record Preferences := {
  roleKeywords : string;
  preferredLocations : list string;
  preferredModes : list JobMode;
  experienceLevel : option JobExperience;   (* [None] is [''] *)
  prefSkillsText : string;                  (* the [skills] field *)
  minMatchScore : Z
}.

Definition defaultPreferences : Preferences := {|
  roleKeywords := "";
  preferredLocations := [];
  preferredModes := [];
  experienceLevel := None;
  prefSkillsText := "";
  minMatchScore := 40
|}.

Record JobStatusRecord := {
  status : JobStatus;
  updatedAt : string
}.

(* ===================================================================== *)
(** ** Match scorer                                                       *)
(* ===================================================================== *)

Definition splitCommaSeparated (value : string) : list string :=
  List.filter truthy
         (map (fun token => toLowerCase (trim token)) (split ","%char value)).

Definition lengthZ {A} (l : list A) : Z := Z.of_nat (length l).

Definition computeMatchScore (job : Job) (preferences : Preferences) : Z :=
  let score := 0 in
  let roleKeywords := splitCommaSeparated preferences.(roleKeywords) in
  let prefSkills := splitCommaSeparated preferences.(prefSkillsText) in
  let titleLower := toLowerCase job.(title) in
  let descriptionLower := toLowerCase job.(description) in
  let score :=
    if 0 <? lengthZ roleKeywords then
      let score :=
        if existsb (fun kw => includes titleLower kw) roleKeywords
        then score + 25 else score in
      let score :=
        if existsb (fun kw => includes descriptionLower kw) roleKeywords
        then score + 15 else score in
      score
    else score in
  let score :=
    if 0 <? lengthZ preferences.(preferredLocations) then
      if arrayIncludes preferences.(preferredLocations) job.(location)
      then score + 15 else score
    else score in
  let score :=
    if 0 <? lengthZ preferences.(preferredModes) then
      if existsb (fun m => bool_decide (m = job.(mode))) preferences.(preferredModes)
      then score + 10 else score
    else score in
  let score :=
    match preferences.(experienceLevel) with
    | Some level => if bool_decide (level = job.(experience)) then score + 10 else score
    | None => score
    end in
  let score :=
    if 0 <? lengthZ prefSkills then
      let jobSkillsLower := map toLowerCase job.(skills) in
      let hasOverlap := existsb (fun skill => arrayIncludes prefSkills skill) jobSkillsLower in
      if hasOverlap then score + 15 else score
    else score in
  let score := if job.(postedDaysAgo) <=? 2 then score + 5 else score in
  let score := if String.eqb job.(source) "LinkedIn" then score + 5 else score in
  Z.min score 100.

(** The scoring criteria of the point scheme, as the spec lists them. *)
Inductive Criterion :=
| RoleInTitle | RoleInDescription | PreferredLocation | PreferredMode
| ExperienceLevel | SkillOverlap | Recency | PremiumSource.

#[global] Instance Criterion_eq_dec : EqDecision Criterion.
Proof. solve_decision. Defined.

Definition allCriteria : list Criterion :=
  [RoleInTitle; RoleInDescription; PreferredLocation; PreferredMode;
   ExperienceLevel; SkillOverlap; Recency; PremiumSource].

Definition points (c : Criterion) : Z :=
  match c with
  | RoleInTitle => 25
  | RoleInDescription => 15
  | PreferredLocation => 15
  | PreferredMode => 10
  | ExperienceLevel => 10
  | SkillOverlap => 15
  | Recency => 5
  | PremiumSource => 5
  end.

(** When a criterion counts as satisfied, in the spec's words (4.1): a
    keyword is a substring of the lower-cased title or description, the
    location or mode of the job is among the preferred ones, the chosen
    experience level is the job's, a lower-cased job skill is among the
    normalised preferred skills, the job is at most two days old, the source
    is LinkedIn. *)
Definition satisfied (c : Criterion) (job : Job) (preferences : Preferences) : bool :=
  match c with
  | RoleInTitle =>
      existsb (fun kw => includes (toLowerCase job.(title)) kw)
              (splitCommaSeparated preferences.(roleKeywords))
  | RoleInDescription =>
      existsb (fun kw => includes (toLowerCase job.(description)) kw)
              (splitCommaSeparated preferences.(roleKeywords))
  | PreferredLocation =>
      arrayIncludes preferences.(preferredLocations) job.(location)
  | PreferredMode =>
      existsb (fun m => bool_decide (m = job.(mode))) preferences.(preferredModes)
  | ExperienceLevel =>
      bool_decide (preferences.(experienceLevel) = Some job.(experience))
  | SkillOverlap =>
      existsb (fun skill => arrayIncludes (splitCommaSeparated preferences.(prefSkillsText)) skill)
              (map toLowerCase job.(skills))
  | Recency => job.(postedDaysAgo) <=? 2
  | PremiumSource => String.eqb job.(source) "LinkedIn"
  end.

Definition contribution (job : Job) (preferences : Preferences) (c : Criterion) : Z :=
  if satisfied c job preferences then points c else 0.

(** Sum of the contributions of the satisfied criteria. *)
Definition contributions (job : Job) (preferences : Preferences) : Z :=
  fold_right Z.add 0 (map (contribution job preferences) allCriteria).

(* ===================================================================== *)
(** ** Salary extraction                                                  *)
(* ===================================================================== *)

(** The longest run of digits at the start of [s]: what the greedy [\d+]
    consumes when it is tried at index 0. *)
Fixpoint takeDigits (s : string) : string :=
  match s with
  | EmptyString => EmptyString
  | String c r => if isDigit c then String c (takeDigits r) else EmptyString
  end.

(** [s.match(/(\d+)/)]: the pattern is tried at every index from the left;
    the result is the capture group of the first index where it matches,
    [None] for [null]. *)
Fixpoint matchDigits (s : string) : option string :=
  match s with
  | EmptyString => None
  | String _ r =>
      match takeDigits s with
      | EmptyString => matchDigits r
      | String _ _ as run => Some run
      end
  end.

Definition digitValue (c : ascii) : Z := charCode c - 48.

(** [Number.MAX_SAFE_INTEGER], 2^53 - 1: up to it every integer is a double,
    and [parseInt], [*] and [-] on integers are exact when their result does
    not exceed it. *)
Definition maxSafeInteger : Z := 9007199254740991.

(** [Number.parseInt(digits, 10)] on a string of decimal digits, as the
    integer the digits denote.  That is the number the code holds as long
    as it does not exceed [maxSafeInteger]; above, the code holds a double
    near it, which this definition does not describe. *)
Definition parseInt10 (digits : string) : Z :=
  fold_left (fun acc c => acc * 10 + digitValue c) (list_ascii_of_string digits) 0.

Definition extractSalaryValue (salaryRange : string) : Z :=
  match matchDigits salaryRange with
  | None => 0
  | Some group =>
      let value := parseInt10 group in
      let lower := toLowerCase salaryRange in
      if includes lower "lpa" then value * 100000
      else if includes lower "k" then value * 1000
      else value
  end.

(** The spec's reading of the same function.  A text contains [q]
    case-insensitively when some substring of it equals [q] up to letter
    case; the first run of decimal digits starts at the first digit of the
    text and stops before the next non-digit. *)
Definition containsIgnoreCase (s q : string) : Prop :=
  exists pre mid post,
    s = pre +:+ mid +:+ post /\ toLowerCase mid = toLowerCase q.

Definition hasNoDigit (s : string) : Prop :=
  Forall (fun c => isDigit c = false) (list_ascii_of_string s).

Definition allDigits (s : string) : Prop :=
  Forall (fun c => isDigit c = true) (list_ascii_of_string s).

Definition startsWithDigit (s : string) : bool :=
  match s with EmptyString => false | String c _ => isDigit c end.

(** [run] is the first run of decimal digits of [s]. *)
Definition firstDigitRun (s run : string) : Prop :=
  exists pre post,
    s = pre +:+ run +:+ post /\ hasNoDigit pre /\
    run <> EmptyString /\ allDigits run /\ startsWithDigit post = false.

(** The value a string of decimal digits denotes, most significant first. *)
Fixpoint decimalValue (digits : list ascii) : Z :=
  match digits with
  | [] => 0
  | c :: r => digitValue c * 10 ^ Z.of_nat (length r) + decimalValue r
  end.

(* ===================================================================== *)
(** ** View engine: the [filteredJobs] memo of [JobsDashboard]            *)
(* ===================================================================== *)

Inductive SortKey := latest | matchScore | salary.

(** [Filters]; an unset select is [''] in the source: the empty string for
    [location] and [source], [None] for the enumerations. *)
Record Filters := {
  keyword : string;
  f_location : string;
  f_mode : option JobMode;
  f_experience : option JobExperience;
  f_source : string;
  sort : SortKey;
  f_status : option JobStatus
}.

(** The initial [filters] state of [JobsDashboard]. *)
Definition noFilters : Filters := {|
  keyword := "";
  f_location := "";
  f_mode := None;
  f_experience := None;
  f_source := "";
  sort := latest;
  f_status := None
|}.

(** An element of [jobsWithScores]: [{ job, score }]. *)
Record Scored := { job : Job; score : Z }.

Definition jobsWithScores (jobs : list Job) (preferences : Preferences) : list Scored :=
  map (fun job => {| job := job; score := computeMatchScore job preferences |}) jobs.

(** [Array.prototype.sort(compare)]: a stable sort; [compare a b <= 0]
    keeps [a] before [b].  Insertion from the right end keeps equal
    elements in their input order. *)
Section Sort.
Context {A : Type} (compare : A -> A -> Z).

Fixpoint insertSorted (x : A) (l : list A) : list A :=
  match l with
  | [] => [x]
  | y :: l' => if compare x y <=? 0 then x :: l else y :: insertSorted x l'
  end.

Definition arraySort (l : list A) : list A := fold_right insertSorted [] l.
End Sort.

(** [jobStatuses[job.id]?.status ?? 'Not Applied'], the status the filter
    compares; the [status] prop of [JobCard] is the same value, written
    [jobStatuses[job.id]?.status ? jobStatuses[job.id]!.status : 'Not Applied']. *)
Definition statusOf (jobStatuses : gmap Z JobStatusRecord) (j : Job) : JobStatus :=
  match jobStatuses !! j.(id) with
  | Some statusRecord => statusRecord.(status)
  | None => NotApplied
  end.

(** [hasPreferences] of [App]. *)
Definition hasPreferences (preferences : Preferences) : bool :=
  truthy (trim preferences.(roleKeywords)) ||
  truthy (trim preferences.(prefSkillsText)) ||
  (0 <? lengthZ preferences.(preferredLocations)) ||
  (0 <? lengthZ preferences.(preferredModes)) ||
  match preferences.(experienceLevel) with Some _ => true | None => false end.

(** The comparator handed to [result.sort]. *)
Definition viewCompare (filters : Filters) (a b : Scored) : Z :=
  match filters.(sort) with
  | matchScore => b.(score) - a.(score)
  | salary =>
      extractSalaryValue b.(job).(salaryRange) -
      extractSalaryValue a.(job).(salaryRange)
  | latest => a.(job).(postedDaysAgo) - b.(job).(postedDaysAgo)
  end.

(** The body of the memo.  [preferences.minMatchScore ?? 40] is
    [preferences.minMatchScore]: the field always holds a number. *)
Definition filteredJobs (jobsWithScores : list Scored) (filters : Filters)
    (showOnlyMatches hasPreferences : bool) (preferences : Preferences)
    (jobStatuses : gmap Z JobStatusRecord) : list Scored :=
  let result := jobsWithScores in
  let result :=
    if truthy (trim filters.(keyword)) then
      let q := toLowerCase filters.(keyword) in
      List.filter (fun x =>
        includes (toLowerCase x.(job).(title)) q ||
        includes (toLowerCase x.(job).(company)) q) result
    else result in
  let result :=
    if truthy filters.(f_location) then
      List.filter (fun x => String.eqb x.(job).(location) filters.(f_location)) result
    else result in
  let result :=
    match filters.(f_mode) with
    | Some m => List.filter (fun x => bool_decide (x.(job).(mode) = m)) result
    | None => result
    end in
  let result :=
    match filters.(f_experience) with
    | Some e => List.filter (fun x => bool_decide (x.(job).(experience) = e)) result
    | None => result
    end in
  let result :=
    if truthy filters.(f_source) then
      List.filter (fun x => String.eqb x.(job).(source) filters.(f_source)) result
    else result in
  let result :=
    match filters.(f_status) with
    | Some s =>
        List.filter (fun x => bool_decide (statusOf jobStatuses x.(job) = s)) result
    | None => result
    end in
  let result :=
    if showOnlyMatches && hasPreferences then
      let threshold := preferences.(minMatchScore) in
      List.filter (fun x => threshold <=? x.(score)) result
    else result in
  arraySort (viewCompare filters) result.

(** The filters of the view engine and what each one asks of a job, in the
    spec's words (4.3). *)
Inductive FilterKind :=
| ByKeyword | ByLocation | ByMode | ByExperience | BySource | ByStatus
| AboveThreshold.

Definition allFilterKinds : list FilterKind :=
  [ByKeyword; ByLocation; ByMode; ByExperience; BySource; ByStatus; AboveThreshold].

(** A text field holds something other than white space. *)
Definition nonBlank (s : string) : Prop :=
  exists c, In c (list_ascii_of_string s) /\ isSpace c = false.

(** Whether a filter is set.  A keyword of white space only counts as unset;
    the threshold filter is set when the toggle is on and the preferences
    are non-empty. *)
Definition filterSet (k : FilterKind) (filters : Filters)
    (showOnlyMatches hasPreferences : bool) : Prop :=
  match k with
  | ByKeyword => nonBlank filters.(keyword)
  | ByLocation => filters.(f_location) <> ""
  | ByMode => filters.(f_mode) <> None
  | ByExperience => filters.(f_experience) <> None
  | BySource => filters.(f_source) <> ""
  | ByStatus => filters.(f_status) <> None
  | AboveThreshold => showOnlyMatches = true /\ hasPreferences = true
  end.

(** The predicate of a filter on a scored job.  The status filter asks for
    the job's current status: the status of its record in the status store,
    or "Not Applied" when the store holds no record under the job's id. *)
Definition filterHolds (k : FilterKind) (filters : Filters)
    (preferences : Preferences) (jobStatuses : gmap Z JobStatusRecord)
    (x : Scored) : Prop :=
  match k with
  | ByKeyword =>
      containsIgnoreCase x.(job).(title) filters.(keyword) \/
      containsIgnoreCase x.(job).(company) filters.(keyword)
  | ByLocation => x.(job).(location) = filters.(f_location)
  | ByMode => Some x.(job).(mode) = filters.(f_mode)
  | ByExperience => Some x.(job).(experience) = filters.(f_experience)
  | BySource => x.(job).(source) = filters.(f_source)
  | ByStatus =>
      match jobStatuses !! x.(job).(id) with
      | Some statusRecord => Some statusRecord.(status) = filters.(f_status)
      | None => Some NotApplied = filters.(f_status)
      end
  | AboveThreshold => preferences.(minMatchScore) <= x.(score)
  end.

(** The configuration in which only filter [k] of [filters] is kept and
    every other filter is unset (the sort key is kept). *)
Definition onlyFilter (k : FilterKind) (filters : Filters) : Filters := {|
  keyword := match k with ByKeyword => filters.(keyword) | _ => "" end;
  f_location := match k with ByLocation => filters.(f_location) | _ => "" end;
  f_mode := match k with ByMode => filters.(f_mode) | _ => None end;
  f_experience := match k with ByExperience => filters.(f_experience) | _ => None end;
  f_source := match k with BySource => filters.(f_source) | _ => "" end;
  sort := filters.(sort);
  f_status := match k with ByStatus => filters.(f_status) | _ => None end
|}.

Definition onlyToggle (k : FilterKind) (showOnlyMatches : bool) : bool :=
  match k with AboveThreshold => showOnlyMatches | _ => false end.

(* ===================================================================== *)
(** ** Persisted store                                                    *)
(* ===================================================================== *)

(** [DigestItem] *)
Record DigestItem := { jobId : Z; itemScore : Z }.

(** A text held by [window.localStorage], by what reading it back gives:
    the empty string (falsy, never parsed), a text [JSON.parse] rejects with
    a [SyntaxError], or the parsed document.  The documents told apart are
    the ones this program writes: [{"items":[{jobId,score},...]}] under a
    digest key and an array of job ids under ['jnt-saved-jobs']; [OtherJson]
    is any other JSON value, which is neither an array nor an object with an
    [items] array. *)
Inductive Stored :=
| EmptyText
| Unparsable
| ItemsDocument (items : list DigestItem)
| IdArray (ids : list Z)
| OtherJson.

(** Outcome of a handler body: it returns, or an exception leaves it. *)
Inductive Completion (A : Type) :=
| Returned (a : A)
| Thrown (a : A).
Arguments Returned {A} a.
Arguments Thrown {A} a.

Definition outcome {A} (c : Completion A) : A :=
  match c with Returned a | Thrown a => a end.

(* ===================================================================== *)
(** ** Digest generator: [DigestPage]                                     *)
(* ===================================================================== *)

(** [DigestState] *)
Record DigestState := { date : string; items : list DigestItem }.

(** The [useState] cells of [DigestPage]. *)
Record DigestPage := {
  digest : option DigestState;
  isGenerating : bool;
  noMatchesToday : bool
}.

(** State of a freshly mounted [DigestPage]. *)
Definition initialDigestPage : DigestPage :=
  {| digest := None; isGenerating := false; noMatchesToday := false |}.

Definition setDigest (d : DigestState) (st : DigestPage) : DigestPage :=
  {| digest := Some d; isGenerating := st.(isGenerating);
     noMatchesToday := st.(noMatchesToday) |}.

Definition setNoMatchesToday (b : bool) (st : DigestPage) : DigestPage :=
  {| digest := st.(digest); isGenerating := st.(isGenerating);
     noMatchesToday := b |}.

Definition setIsGenerating (b : bool) (st : DigestPage) : DigestPage :=
  {| digest := st.(digest); isGenerating := b;
     noMatchesToday := st.(noMatchesToday) |}.

(** The comparator of [matching.sort] in [generateDigest]. *)
Definition digestCompare (a b : Scored) : Z :=
  if negb (b.(score) =? a.(score)) then b.(score) - a.(score)
  else a.(job).(postedDaysAgo) - b.(job).(postedDaysAgo).

Definition toDigestItem (x : Scored) : DigestItem :=
  {| jobId := x.(job).(id); itemScore := x.(score) |}.

Section DigestPage.
(** [JOBS] is the catalog exported by [./data/jobs]; [digestKey] and
    [dateStr] are what [getTodayDigestKey] returned when the page was
    mounted; [preferences] and [hasPreferences] are the props. *)
Variable JOBS : list Job.
Variables digestKey dateStr : string.
Variable preferences : Preferences.
Variable hasPreferences : bool.

(** The mount effect: expose the stored snapshot, if there is one; parse
    errors are caught and ignored. *)
Definition loadDigest (st : DigestPage) (storage : gmap string Stored) : DigestPage :=
  match storage !! digestKey with
  | Some (ItemsDocument parsedItems) =>
      setNoMatchesToday (lengthZ parsedItems =? 0)
        (setDigest {| date := dateStr; items := parsedItems |} st)
  | _ => st
  end.

(** The statements of [generateDigest] from [const jobsWithScores] on. *)
Definition computeDigest (st : DigestPage) (storage : gmap string Stored)
    : DigestPage * gmap string Stored :=
  let jobsWithScores := jobsWithScores JOBS preferences in
  let matching := List.filter (fun x => 0 <? x.(score)) jobsWithScores in
  if lengthZ matching =? 0 then
    let emptyDigest := {| date := dateStr; items := [] |} in
    let storage := <[digestKey := ItemsDocument []]> storage in
    (setNoMatchesToday true (setDigest emptyDigest st), storage)
  else
    let matching := arraySort digestCompare matching in
    let top10 := take 10 matching in
    let items := map toDigestItem top10 in
    let storage := <[digestKey := ItemsDocument items]> storage in
    (setNoMatchesToday false (setDigest {| date := dateStr; items := items |} st),
     storage).

(** The [try] block.  The one exception it is given is the [SyntaxError] of
    [JSON.parse]; [localStorage.setItem] is taken to succeed. *)
Definition generateDigestBody (st : DigestPage) (storage : gmap string Stored)
    : Completion (DigestPage * gmap string Stored) :=
  match storage !! digestKey with
  | Some Unparsable => Thrown (st, storage)
  | Some (ItemsDocument parsedItems) =>
      Returned
        (setNoMatchesToday (lengthZ parsedItems =? 0)
           (setDigest {| date := dateStr; items := parsedItems |} st),
         storage)
  | Some EmptyText | Some (IdArray _) | Some OtherJson | None =>
      Returned (computeDigest st storage)
  end.

(** [finally { setIsGenerating(false) }] *)
Definition finallyNotGenerating (c : Completion (DigestPage * gmap string Stored))
    : Completion (DigestPage * gmap string Stored) :=
  match c with
  | Returned (st, storage) => Returned (setIsGenerating false st, storage)
  | Thrown (st, storage) => Thrown (setIsGenerating false st, storage)
  end.

Definition generateDigest (st : DigestPage) (storage : gmap string Stored)
    : Completion (DigestPage * gmap string Stored) :=
  if negb hasPreferences then Returned (st, storage)
  else
    let st := setIsGenerating true st in
    finallyNotGenerating (generateDigestBody st storage).

(** The snapshot stored for the day, [None] when the key is absent or
    holds no snapshot. *)
Definition storedSnapshot (storage : gmap string Stored) : option (list DigestItem) :=
  match storage !! digestKey with
  | Some (ItemsDocument storedItems) => Some storedItems
  | _ => None
  end.

(** No snapshot is stored for the day: the key is absent, or what it
    holds is the empty text or a document other than a snapshot.  A text
    that is not JSON is set apart: [JSON.parse] throws on it, and the [try]
    of [generateDigest] has a [finally] but no [catch]. *)
Definition snapshotAbsent (storage : gmap string Stored) : Prop :=
  match storage !! digestKey with
  | Some (ItemsDocument _) | Some Unparsable => False
  | Some EmptyText | Some (IdArray _) | Some OtherJson | None => True
  end.

(** The states of the per-day state machine of the spec (4.4). *)
Inductive DigestPhase := Uninitialized | Empty | Populated.

Definition digestPhase (storage : gmap string Stored) : DigestPhase :=
  match storedSnapshot storage with
  | None => Uninitialized
  | Some [] => Empty
  | Some (_ :: _) => Populated
  end.
End DigestPage.

(** The order [digestCompare] sorts by: higher score first, and among equal
    scores the more recently posted job first. *)
Definition digestBefore (a b : Scored) : Prop :=
  b.(score) < a.(score) \/
  (a.(score) = b.(score) /\ a.(job).(postedDaysAgo) <= b.(job).(postedDaysAgo)).

(* ===================================================================== *)
(** ** Saved set: [savedJobIds] of [App]                                  *)
(* ===================================================================== *)

Definition savedJobsKey : string := "jnt-saved-jobs".

(** The updater passed to [setSavedJobIds] by [handleSaveJob], with its
    write to the store. *)
Definition handleSaveJob (id : Z) (prev : list Z) (storage : gmap string Stored)
    : list Z * gmap string Stored :=
  if existsb (Z.eqb id) prev then (prev, storage)
  else
    let next := prev ++ [id] in
    (next, <[savedJobsKey := IdArray next]> storage).

(** The mount effect of [App] that reads the saved ids back. *)
Definition loadSavedJobs (saved : list Z) (storage : gmap string Stored) : list Z :=
  match storage !! savedJobsKey with
  | Some (IdArray parsed) => parsed
  | _ => saved
  end.

(** What can happen to the saved list: the mount effect and a click on
    "Save".  No handler removes an id. *)
Inductive SavedEvent := MountLoad | ClickSave (id : Z).

Definition savedStep (s : list Z * gmap string Stored) (e : SavedEvent)
    : list Z * gmap string Stored :=
  match e with
  | MountLoad => (loadSavedJobs s.1 s.2, s.2)
  | ClickSave id => handleSaveJob id s.1 s.2
  end.

Definition savedRun (events : list SavedEvent) (s : list Z * gmap string Stored)
    : list Z * gmap string Stored :=
  fold_left savedStep events s.

(** The persisted record of the saved set, when there is one, lists no id
    twice. *)
Definition storedIdsDistinct (storage : gmap string Stored) : Prop :=
  forall ids, storage !! savedJobsKey = Some (IdArray ids) -> List.NoDup ids.

(* ===================================================================== *)
(** ** Settings and sample data                                           *)
(* ===================================================================== *)

(** [{ ...filters, status }], the update [FilterBar] makes for a field. *)
Definition updateStatus (s : option JobStatus) (filters : Filters) : Filters := {|
  keyword := filters.(keyword);
  f_location := filters.(f_location);
  f_mode := filters.(f_mode);
  f_experience := filters.(f_experience);
  f_source := filters.(f_source);
  sort := filters.(sort);
  f_status := s
|}.

(** [{ ...preferences, minMatchScore }], the update of the threshold slider
    of [SettingsPage]. *)
Definition setMinMatchScore (m : Z) (preferences : Preferences) : Preferences := {|
  roleKeywords := preferences.(roleKeywords);
  preferredLocations := preferences.(preferredLocations);
  preferredModes := preferences.(preferredModes);
  experienceLevel := preferences.(experienceLevel);
  prefSkillsText := preferences.(prefSkillsText);
  minMatchScore := m
|}.

(** [{ ...preferences, preferredLocations }], the update of the locations
    select of [SettingsPage]. *)
Definition setPreferredLocations (selected : list string) (preferences : Preferences)
    : Preferences := {|
  roleKeywords := preferences.(roleKeywords);
  preferredLocations := selected;
  preferredModes := preferences.(preferredModes);
  experienceLevel := preferences.(experienceLevel);
  prefSkillsText := preferences.(prefSkillsText);
  minMatchScore := preferences.(minMatchScore)
|}.


(** Sample data used to exercise the statements below. *)
Definition sampleJob : Job := {|
  id := 1; title := "React Developer"; company := "Acme";
  location := "Pune"; mode := Remote; experience := Exp1to3;
  salaryRange := "12 LPA"; source := "LinkedIn"; skills := ["React"; "SQL"];
  description := "Build dashboards"; postedDaysAgo := 1;
  applyUrl := "https://example.com/1"
|}.

Definition staleJob : Job := {|
  id := 2; title := "Java Backend"; company := "Initech";
  location := "Delhi"; mode := Onsite; experience := Exp3to5;
  salaryRange := "8k"; source := "Naukri"; skills := ["Java"];
  description := "Maintain services"; postedDaysAgo := 10;
  applyUrl := "https://example.com/2"
|}.

Definition punePreferences : Preferences :=
  setPreferredLocations ["Pune"] defaultPreferences.

Definition todayKey : string := "jobTrackerDigest_2026-01-15".
Definition today : string := "2026-01-15".

(** A store that already holds a snapshot for [todayKey]. *)
Definition populatedStorage : gmap string Stored :=
  {[ todayKey := ItemsDocument [{| jobId := 2; itemScore := 15 |}] ]}.

(* ===================================================================== *)
(** ** Further code of [App.tsx]                                          *)
(* ===================================================================== *)

(** [Array.from(new Set(values))]: the distinct values, each at the place
    of its first occurrence. *)
Fixpoint newSet (values : list string) : list string :=
  match values with
  | [] => []
  | v :: rest => v :: List.filter (fun w => negb (String.eqb w v)) (newSet rest)
  end.

(** The comparison [Array.prototype.sort()] makes without a comparator, on
    strings: code unit by code unit, a proper prefix first. *)
Definition defaultCompare (a b : string) : Z :=
  match String.compare a b with
  | Lt => -1
  | Eq => 0
  | Gt => 1
  end.

(** [Array.from(new Set(...)).sort()] *)
Definition sortedDistinct (values : list string) : list string :=
  arraySort defaultCompare (newSet values).

(** The [locations] and [sources] memos of [JobsDashboard], the options of
    the two selects; [SettingsPage] builds its location options the same
    way. *)
Definition locations (jobs : list Job) : list string :=
  sortedDistinct (map location jobs).

Definition sources (jobs : list Job) : list JobSource :=
  sortedDistinct (map source jobs).

(** All the filter steps of [filteredJobs] as one test on a scored job. *)
Definition passesFilters (filters : Filters) (showOnlyMatches hasPreferences : bool)
    (preferences : Preferences) (jobStatuses : gmap Z JobStatusRecord)
    (x : Scored) : bool :=
  (negb (truthy (trim filters.(keyword))) ||
   (includes (toLowerCase x.(job).(title)) (toLowerCase filters.(keyword)) ||
    includes (toLowerCase x.(job).(company)) (toLowerCase filters.(keyword)))) &&
  (negb (truthy filters.(f_location)) ||
   String.eqb x.(job).(location) filters.(f_location)) &&
  match filters.(f_mode) with
  | Some m => bool_decide (x.(job).(mode) = m)
  | None => true
  end &&
  match filters.(f_experience) with
  | Some e => bool_decide (x.(job).(experience) = e)
  | None => true
  end &&
  (negb (truthy filters.(f_source)) ||
   String.eqb x.(job).(source) filters.(f_source)) &&
  match filters.(f_status) with
  | Some s => bool_decide (statusOf jobStatuses x.(job) = s)
  | None => true
  end &&
  (negb (showOnlyMatches && hasPreferences) ||
   (preferences.(minMatchScore) <=? x.(score))).


(** [{ ...preferences, preferredModes }] *)
Definition setPreferredModes (nextModes : list JobMode) (preferences : Preferences)
    : Preferences := {|
  roleKeywords := preferences.(roleKeywords);
  preferredLocations := preferences.(preferredLocations);
  preferredModes := nextModes;
  experienceLevel := preferences.(experienceLevel);
  prefSkillsText := preferences.(prefSkillsText);
  minMatchScore := preferences.(minMatchScore)
|}.

(** [toggleMode] of [SettingsPage], as the preferences it hands to
    [onChange]. *)
Definition toggleMode (mode : JobMode) (preferences : Preferences) : Preferences :=
  let exists_ :=
    existsb (fun m => bool_decide (m = mode)) preferences.(preferredModes) in
  let nextModes :=
    if exists_
    then List.filter (fun m => negb (bool_decide (m = mode))) preferences.(preferredModes)
    else preferences.(preferredModes) ++ [mode] in
  setPreferredModes nextModes preferences.

(** The [savedJobs] memo of [SavedPage]. *)
Definition savedJobs (JOBS : list Job) (savedJobIds : list Z) : list Job :=
  List.filter (fun job => existsb (Z.eqb job.(id)) savedJobIds) JOBS.

Definition statusKey : string := "jobTrackerStatus".

(** The updater passed to [setJobStatuses] by [handleChangeStatus], with its
    write to the store; [now] is [new Date().toISOString()].  The document
    written is the status map as a JSON object keyed by job id, an
    [OtherJson] of the store. *)
Definition handleChangeStatus (jobId : Z) (newStatus : JobStatus) (now : string)
    (prev : gmap Z JobStatusRecord) (storage : gmap string Stored)
    : gmap Z JobStatusRecord * gmap string Stored :=
  let next := <[jobId := {| status := newStatus; updatedAt := now |}]> prev in
  (next, <[statusKey := OtherJson]> storage).

(** [new Map(JOBS.map((job) => [job.id, job]))]: a later job replaces an
    earlier one with the same id. *)
Definition byId (jobs : list Job) : gmap Z Job :=
  fold_left (fun m job => <[job.(id) := job]> m) jobs ∅.

(** The [digestJobs] memo of [DigestPage]: the items whose job id is in the
    catalog, each with the stored score. *)
Definition digestJobs (JOBS : list Job) (digest : option DigestState) : list Scored :=
  match digest with
  | None => []
  | Some d =>
      omap (fun item =>
              match byId JOBS !! item.(jobId) with
              | None => None
              | Some job => Some {| job := job; score := item.(itemScore) |}
              end)
           d.(items)
  end.

(** [String(n)] for a non-negative integer [n]. *)
Definition numberToString (n : Z) : string :=
  NilZero.string_of_uint (N.to_uint (Z.to_N n)).

(** [s.padStart(2, '0')] *)
Definition padStart2 (s : string) : string :=
  match s with
  | EmptyString => "00"
  | String c EmptyString => String "0" s
  | _ => s
  end.

(** [getTodayDigestKey], from what [getFullYear()], [getMonth()] and
    [getDate()] return for the current date: the pair [(key, dateStr)]. *)
Definition getTodayDigestKey (fullYear month date : Z) : string * string :=
  let yyyy := numberToString fullYear in
  let mm := padStart2 (numberToString (month + 1)) in
  let dd := padStart2 (numberToString date) in
  let dateStr := yyyy +:+ "-" +:+ mm +:+ "-" +:+ dd in
  ("jobTrackerDigest_" +:+ dateStr, dateStr).

(* ===================================================================== *)
(** * Properties                                                          *)
(* ===================================================================== *)

(** ** Match scorer *)

Lemma guarded_by_length {A B} (l : list A) (c : bool) (a b : B) :
  (l = [] -> c = false) ->
  (if 0 <? lengthZ l then (if c then a else b) else b) = (if c then a else b).
Proof.
  intros Hnil. destruct l as [|x l].
  - rewrite Hnil; reflexivity.
  - unfold lengthZ. simpl length.
    destruct (0 <? Z.of_nat (S (length l))) eqn:E; [reflexivity|].
    apply Z.ltb_ge in E. lia.
Qed.

Lemma guarded_keywords {A} (f g : A -> bool) (l : list A) (s a b : Z) :
  (if 0 <? lengthZ l
   then (let s1 := if existsb f l then s + a else s in
         let s2 := if existsb g l then s1 + b else s1 in s2)
   else s) =
  s + (if existsb f l then a else 0) + (if existsb g l then b else 0).
Proof.
  destruct l as [|x l].
  - simpl. lia.
  - unfold lengthZ. simpl length.
    destruct (0 <? Z.of_nat (S (length l))) eqn:E.
    + cbv zeta. destruct (existsb f (x :: l)), (existsb g (x :: l)); lia.
    + apply Z.ltb_ge in E. lia.
Qed.

Lemma existsb_arrayIncludes_nil (l : list string) :
  existsb (fun x => arrayIncludes [] x) l = false.
Proof. induction l; simpl; auto. Qed.

Lemma experience_test (level : option JobExperience) (e : JobExperience) (s : Z) :
  match level with
  | Some l => if bool_decide (l = e) then s + 10 else s
  | None => s
  end = s + (if bool_decide (level = Some e) then 10 else 0).
Proof.
  destruct level as [l|].
  - destruct (decide (l = e)) as [->|Hne].
    + rewrite !bool_decide_eq_true_2 by reflexivity. reflexivity.
    + rewrite !bool_decide_eq_false_2 by congruence. lia.
  - rewrite bool_decide_eq_false_2 by congruence. lia.
Qed.

(** The code's running total is the sum of the satisfied criteria's points,
    capped at 100. *)
Lemma computeMatchScore_contributions job preferences :
  computeMatchScore job preferences = Z.min (contributions job preferences) 100.
Proof.
  unfold computeMatchScore, contributions, allCriteria, contribution.
  cbv zeta. rewrite guarded_keywords, experience_test.
  rewrite (guarded_by_length (preferredLocations preferences))
    by (intros ->; reflexivity).
  rewrite (guarded_by_length (preferredModes preferences))
    by (intros ->; reflexivity).
  rewrite (guarded_by_length (splitCommaSeparated (prefSkillsText preferences)))
    by (intros ->; apply existsb_arrayIncludes_nil).
  f_equal. simpl map. unfold satisfied, points. simpl fold_right.
  repeat match goal with
         | |- context [if ?b then _ else _] => destruct b
         end; lia.
Qed.

Lemma contribution_bounds job preferences c :
  0 <= contribution job preferences c <= points c.
Proof.
  unfold contribution. destruct (satisfied c job preferences), c; simpl; lia.
Qed.

Lemma contributions_bounds job preferences :
  0 <= contributions job preferences <= 100.
Proof.
  unfold contributions, allCriteria. simpl.
  pose proof (contribution_bounds job preferences RoleInTitle).
  pose proof (contribution_bounds job preferences RoleInDescription).
  pose proof (contribution_bounds job preferences PreferredLocation).
  pose proof (contribution_bounds job preferences PreferredMode).
  pose proof (contribution_bounds job preferences ExperienceLevel).
  pose proof (contribution_bounds job preferences SkillOverlap).
  pose proof (contribution_bounds job preferences Recency).
  pose proof (contribution_bounds job preferences PremiumSource).
  simpl points in *. lia.
Qed.

(** The cap never cuts anything: the points add up to exactly 100. *)
Lemma computeMatchScore_sum job preferences :
  computeMatchScore job preferences = contributions job preferences.
Proof.
  rewrite computeMatchScore_contributions.
  pose proof (contributions_bounds job preferences). lia.
Qed.

(** C1. For every job and every preferences value the match score is an
    integer between 0 and 100, both included. *)
Theorem computeMatchScore_range (job : Job) (preferences : Preferences) :
  0 <= computeMatchScore job preferences <= 100.
Proof.
  rewrite computeMatchScore_sum. apply contributions_bounds.
Qed.

(** Pointwise comparison of the satisfied criteria carries over to the sum. *)
Lemma contributions_mono job p p' :
  (forall c, contribution job p c <= contribution job p' c) ->
  contributions job p <= contributions job p'.
Proof.
  intros H. unfold contributions.
  induction allCriteria as [|c cs IH]; simpl; [lia|].
  specialize (H c). lia.
Qed.

(** C2. Monotonicity: when the preferences are modified so that one more
    criterion of the point scheme becomes satisfied for a job, and every
    other criterion is satisfied exactly as before, the score of the job does
    not decrease. *)
Theorem computeMatchScore_monotonic
    (job : Job) (preferences preferences' : Preferences) (c : Criterion) :
  satisfied c job preferences = false ->
  satisfied c job preferences' = true ->
  (forall c', c' <> c ->
     satisfied c' job preferences' = satisfied c' job preferences) ->
  computeMatchScore job preferences <= computeMatchScore job preferences'.
Proof.
  intros Hbefore Hafter Hfixed.
  rewrite !computeMatchScore_sum. apply contributions_mono.
  intros c'. unfold contribution.
  destruct (decide (c' = c)) as [->|Hne].
  - rewrite Hbefore, Hafter. destruct c; simpl; lia.
  - rewrite (Hfixed c' Hne). lia.
Qed.

(** ** Strings: what [includes], [toLowerCase] and [trim] compute *)

Lemma append_nil_l (s : string) : "" +:+ s = s.
Proof. reflexivity. Qed.

Lemma append_cons (c : ascii) (a b : string) :
  String c a +:+ b = String c (a +:+ b).
Proof. reflexivity. Qed.

(** [String.append] is kept folded by [simpl]; these unfold it one step. *)
Ltac unfold_append :=
  repeat (progress simpl || rewrite append_cons || rewrite append_nil_l).
Ltac unfold_append_in H :=
  repeat (progress simpl in H || rewrite append_cons in H
          || rewrite append_nil_l in H).

Lemma append_empty_r (s : string) : s +:+ "" = s.
Proof. induction s; unfold_append; congruence. Qed.

Lemma append_assoc (a b c : string) : (a +:+ b) +:+ c = a +:+ (b +:+ c).
Proof. induction a; unfold_append; congruence. Qed.

Lemma append_eq_empty (a b : string) : a +:+ b = "" -> a = "" /\ b = "".
Proof. destruct a; unfold_append; [auto | discriminate]. Qed.

Lemma startsWith_spec (q s : string) :
  startsWith q s = true <-> exists post, s = q +:+ post.
Proof.
  revert s. induction q as [|a q IH]; intros s; simpl.
  - split; eauto.
  - destruct s as [|b s].
    + split; [discriminate | intros [post H]; discriminate].
    + rewrite andb_true_iff, Ascii.eqb_eq, IH. split.
      * intros [-> [post ->]]. eauto.
      * intros [post H]. unfold_append_in H. injection H as -> ->. eauto.
Qed.

Lemma includes_spec (s q : string) :
  includes s q = true <-> exists pre post, s = pre +:+ q +:+ post.
Proof.
  induction s as [|c r IH].
  - simpl. rewrite orb_false_r, startsWith_spec. split.
    + intros [post H]. exists "", post. exact H.
    + intros (pre & post & H). symmetry in H.
      apply append_eq_empty in H as [_ H]. exists post. symmetry. exact H.
  - cbn [includes]. rewrite orb_true_iff, startsWith_spec, IH. split.
    + intros [[post H] | (pre & post & H)].
      * exists "", post. exact H.
      * exists (String c pre), post. unfold_append. congruence.
    + intros (pre & post & H). destruct pre as [|c' pre].
      * left. exists post. exact H.
      * right. unfold_append_in H. injection H as _ H. eauto.
Qed.

Lemma toLowerCase_append (a b : string) :
  toLowerCase (a +:+ b) = toLowerCase a +:+ toLowerCase b.
Proof. induction a; unfold_append; congruence. Qed.

Lemma toLowerCase_split (s a' b' : string) :
  toLowerCase s = a' +:+ b' ->
  exists a b, s = a +:+ b /\ toLowerCase a = a' /\ toLowerCase b = b'.
Proof.
  revert s. induction a' as [|c a' IH]; intros s H.
  - exists "", s. auto.
  - unfold_append_in H. destruct s as [|d s]; simpl in H; [discriminate|].
    injection H as Hc H. destruct (IH s H) as (a & b & -> & Ha & Hb).
    exists (String d a), b. unfold_append. rewrite Ha, Hc. auto.
Qed.

(** [lower.includes(q.toLowerCase())] is containment up to letter case. *)
Lemma includes_ignoreCase (s q : string) :
  includes (toLowerCase s) (toLowerCase q) = true <-> containsIgnoreCase s q.
Proof.
  rewrite includes_spec. split.
  - intros (pre' & post' & H).
    apply toLowerCase_split in H as (pre & rest & -> & _ & H).
    apply toLowerCase_split in H as (mid & post & -> & Hmid & _).
    exists pre, mid, post. auto.
  - intros (pre & mid & post & -> & Hmid).
    exists (toLowerCase pre), (toLowerCase post).
    rewrite !toLowerCase_append, Hmid. reflexivity.
Qed.

Lemma includes_ignoreCase_false (s q : string) :
  includes (toLowerCase s) (toLowerCase q) = false <-> ~ containsIgnoreCase s q.
Proof.
  rewrite <- includes_ignoreCase.
  destruct (includes (toLowerCase s) (toLowerCase q)); split; congruence.
Qed.

Lemma trimEnd_empty (s : string) :
  trimEnd s = "" <-> Forall (fun c => isSpace c = true) (list_ascii_of_string s).
Proof.
  induction s as [|c r IH]; simpl.
  - split; auto.
  - destruct (trimEnd r) eqn:E.
    + destruct (isSpace c) eqn:Ec; split; intros H.
      * constructor; [exact Ec | apply IH; reflexivity].
      * reflexivity.
      * discriminate.
      * inversion H; congruence.
    + split; [discriminate|]. intros H. inversion H as [|? ? _ Hr]; subst.
      apply IH in Hr. discriminate.
Qed.

Lemma trimStart_spaces (s : string) :
  Forall (fun c => isSpace c = true) (list_ascii_of_string (trimStart s)) <->
  Forall (fun c => isSpace c = true) (list_ascii_of_string s).
Proof.
  induction s as [|c r IH]; simpl; [reflexivity|].
  destruct (isSpace c) eqn:Ec; [|reflexivity].
  rewrite IH. split; intros H.
  - constructor; assumption.
  - inversion H; assumption.
Qed.

Lemma not_all_spaces (l : list ascii) :
  ~ Forall (fun c => isSpace c = true) l <->
  exists c, In c l /\ isSpace c = false.
Proof.
  split.
  - induction l as [|c l IH]; intros Hn.
    + exfalso. apply Hn. constructor.
    + destruct (isSpace c) eqn:Ec.
      * assert (Hl : ~ Forall (fun c => isSpace c = true) l)
          by (intros Hall; apply Hn; constructor; assumption).
        destruct (IH Hl) as (c' & Hin & Hc').
        exists c'. split; [right; exact Hin | exact Hc'].
      * exists c. split; [left; reflexivity | exact Ec].
  - intros (c & Hin & Hc) Hall.
    rewrite List.Forall_forall in Hall. specialize (Hall c Hin). congruence.
Qed.

(** [s.trim()] is truthy exactly when [s] holds a character that is not
    white space. *)
Lemma truthy_trim (s : string) : truthy (trim s) = true <-> nonBlank s.
Proof.
  unfold nonBlank, trim.
  rewrite <- not_all_spaces, <- trimStart_spaces, <- trimEnd_empty.
  destruct (trimEnd (trimStart s)); simpl; split; congruence.
Qed.

Lemma truthy_trim_false (s : string) : truthy (trim s) = false <-> ~ nonBlank s.
Proof.
  rewrite <- truthy_trim. destruct (truthy (trim s)); split; congruence.
Qed.

Lemma truthy_nonempty (s : string) : truthy s = true <-> s <> "".
Proof. destruct s; simpl; split; congruence. Qed.

(** ** Salary extraction *)

Lemma takeDigits_run (run post : string) :
  allDigits run -> startsWithDigit post = false ->
  takeDigits (run +:+ post) = run.
Proof.
  unfold allDigits. induction run as [|c run IH]; intros Hall Hpost.
  - unfold_append. destruct post as [|d post]; [reflexivity|].
    simpl in *. rewrite Hpost. reflexivity.
  - simpl in Hall. inversion Hall as [|? ? Hc Hrun]; subst.
    unfold_append. rewrite Hc, IH by assumption. reflexivity.
Qed.

Lemma takeDigits_decompose (s : string) :
  exists post,
    s = takeDigits s +:+ post /\ allDigits (takeDigits s) /\
    startsWithDigit post = false.
Proof.
  unfold allDigits. induction s as [|c r IH].
  - exists "". simpl. repeat split. constructor.
  - simpl. destruct (isDigit c) eqn:Ec.
    + destruct IH as (post & Hr & Hall & Hpost). exists post.
      unfold_append. rewrite <- Hr. repeat split; [|exact Hpost].
      constructor; assumption.
    + exists (String c r). simpl. rewrite Ec. repeat split. constructor.
Qed.

Lemma matchDigits_noDigit (s : string) :
  hasNoDigit s -> matchDigits s = None.
Proof.
  unfold hasNoDigit. induction s as [|c r IH]; intros H; [reflexivity|].
  simpl in H. inversion H as [|? ? Hc Hr]; subst.
  simpl. rewrite Hc. auto.
Qed.

Lemma matchDigits_skip (pre rest : string) :
  hasNoDigit pre -> matchDigits (pre +:+ rest) = matchDigits rest.
Proof.
  unfold hasNoDigit. induction pre as [|c pre IH]; intros H; [reflexivity|].
  simpl in H. inversion H as [|? ? Hc Hr]; subst.
  unfold_append. rewrite Hc. auto.
Qed.

Lemma matchDigits_run (run post : string) :
  run <> "" -> allDigits run -> startsWithDigit post = false ->
  matchDigits (run +:+ post) = Some run.
Proof.
  intros Hne Hall Hpost.
  pose proof (takeDigits_run run post Hall Hpost) as Htake.
  destruct run as [|c run]; [congruence|].
  rewrite append_cons in *. cbn [matchDigits]. rewrite Htake. reflexivity.
Qed.

(** The regular expression finds the first run of decimal digits. *)
Lemma matchDigits_firstDigitRun (s run : string) :
  firstDigitRun s run -> matchDigits s = Some run.
Proof.
  intros (pre & post & -> & Hpre & Hne & Hall & Hpost).
  rewrite matchDigits_skip by assumption. apply matchDigits_run; assumption.
Qed.

(** Every text either has no digit at all or has a first run of digits. *)
Lemma digits_or_not (s : string) :
  hasNoDigit s \/ exists run, firstDigitRun s run.
Proof.
  induction s as [|c r IH].
  - left. constructor.
  - destruct (isDigit c) eqn:Ec.
    + right. exists (takeDigits (String c r)).
      destruct (takeDigits_decompose (String c r)) as (post & Hs & Hall & Hpost).
      exists "", post. unfold_append. repeat split; try assumption.
      * constructor.
      * rewrite Ec. discriminate.
    + destruct IH as [Hno | (run & pre & post & -> & Hpre & Hne & Hall & Hpost)].
      * left. constructor; assumption.
      * right. exists run, (String c pre), post. unfold_append.
        repeat split; try assumption. constructor; assumption.
Qed.

Lemma fold_decimal (digits : list ascii) (acc : Z) :
  fold_left (fun acc c => acc * 10 + digitValue c) digits acc =
  acc * 10 ^ Z.of_nat (length digits) + decimalValue digits.
Proof.
  revert acc. induction digits as [|c r IH]; intros acc.
  - simpl. lia.
  - cbn [fold_left decimalValue length]. rewrite IH.
    rewrite Nat2Z.inj_succ, Z.pow_succ_r by lia. ring.
Qed.

(** [parseInt] reads a run of digits as the decimal numeral it is. *)
Lemma parseInt10_decimalValue (digits : string) :
  parseInt10 digits = decimalValue (list_ascii_of_string digits).
Proof. unfold parseInt10. rewrite fold_decimal. lia. Qed.

(** C3. [extractSalaryValue] parses the first run of decimal digits of the
    salary text and returns 0 when the text has no digit; the parsed value is
    multiplied by 100,000 when the text contains "lpa" in any letter case,
    otherwise by 1,000 when it contains "k", and is returned as it is
    otherwise.  Every text falls under one of these cases.  The value is
    stated where the code's numbers are exact integers, that is, for results
    up to [maxSafeInteger].  In particular "12k" gives 12000, "10 LPA" gives
    1000000 and "no digits" gives 0. *)
Theorem extractSalaryValue_spec (salaryText : string) :
  (hasNoDigit salaryText \/ exists run, firstDigitRun salaryText run) /\
  (hasNoDigit salaryText -> extractSalaryValue salaryText = 0) /\
  (forall run, firstDigitRun salaryText run ->
     let parsed := decimalValue (list_ascii_of_string run) in
     (containsIgnoreCase salaryText "lpa" ->
      parsed * 100000 <= maxSafeInteger ->
        extractSalaryValue salaryText = parsed * 100000) /\
     (~ containsIgnoreCase salaryText "lpa" ->
      containsIgnoreCase salaryText "k" ->
      parsed * 1000 <= maxSafeInteger ->
        extractSalaryValue salaryText = parsed * 1000) /\
     (~ containsIgnoreCase salaryText "lpa" ->
      ~ containsIgnoreCase salaryText "k" ->
      parsed <= maxSafeInteger ->
        extractSalaryValue salaryText = parsed)) /\
  extractSalaryValue "12k" = 12000 /\
  extractSalaryValue "10 LPA" = 1000000 /\
  extractSalaryValue "no digits" = 0.
Proof.
  split; [apply digits_or_not|]. split; [|split].
  - intros Hno. unfold extractSalaryValue.
    rewrite matchDigits_noDigit by assumption. reflexivity.
  - intros run Hrun parsed. unfold extractSalaryValue.
    rewrite (matchDigits_firstDigitRun _ _ Hrun). cbv zeta.
    rewrite parseInt10_decimalValue. fold parsed.
    pose proof (includes_ignoreCase salaryText "lpa") as Tlpa.
    pose proof (includes_ignoreCase_false salaryText "lpa") as Flpa.
    pose proof (includes_ignoreCase salaryText "k") as Tk.
    pose proof (includes_ignoreCase_false salaryText "k") as Fk.
    change (toLowerCase "lpa") with "lpa" in Tlpa, Flpa.
    change (toLowerCase "k") with "k" in Tk, Fk.
    split; [|split].
    + intros Hlpa _. apply Tlpa in Hlpa. rewrite Hlpa. reflexivity.
    + intros Hlpa Hk _. apply Flpa in Hlpa. apply Tk in Hk.
      rewrite Hlpa, Hk. reflexivity.
    + intros Hlpa Hk _. apply Flpa in Hlpa. apply Fk in Hk.
      rewrite Hlpa, Hk. reflexivity.
  - repeat split; reflexivity.
Qed.

(** ** View engine *)

Section SortFacts.
Context {A : Type} (compare : A -> A -> Z).

Lemma insertSorted_perm (x : A) (l : list A) :
  Permutation (insertSorted compare x l) (x :: l).
Proof.
  induction l as [|y l IH]; simpl; [reflexivity|].
  destruct (compare x y <=? 0); [reflexivity|].
  rewrite IH. apply perm_swap.
Qed.

(** Sorting rearranges: nothing is added, dropped or repeated. *)
Lemma arraySort_perm (l : list A) : Permutation (arraySort compare l) l.
Proof.
  induction l as [|x l IH]; simpl; [reflexivity|].
  rewrite insertSorted_perm, IH. reflexivity.
Qed.

Lemma In_arraySort (x : A) (l : list A) :
  In x (arraySort compare l) <-> In x l.
Proof.
  split; apply Permutation_in;
    [apply arraySort_perm | symmetry; apply arraySort_perm].
Qed.

Lemma arraySort_length (l : list A) :
  length (arraySort compare l) = length l.
Proof. apply Permutation_length, arraySort_perm. Qed.
End SortFacts.

Lemma In_filter_if {A} (c : bool) (p : A -> bool) (l : list A) (x : A) :
  In x (if c then List.filter p l else l) <->
  In x l /\ (c = true -> p x = true).
Proof.
  destruct c.
  - rewrite List.filter_In. tauto.
  - split; [intros H; split; [exact H | discriminate] | tauto].
Qed.

Lemma In_filter_option {A B} (o : option B) (p : B -> A -> bool)
    (l : list A) (x : A) :
  In x (match o with Some v => List.filter (p v) l | None => l end) <->
  In x l /\ (forall v, o = Some v -> p v x = true).
Proof.
  destruct o as [v|].
  - rewrite List.filter_In. split.
    + intros [H1 H2]. split; [exact H1|]. intros v' [= <-]. exact H2.
    + intros [H1 H2]. auto.
  - split; [intros H; split; [exact H | discriminate] | tauto].
Qed.

(** A job is retained exactly when it comes from the scored catalog and
    satisfies the predicate of every filter that is set. *)
Lemma In_filteredJobs (jws : list Scored) (filters : Filters)
    (showOnlyMatches hasPrefs : bool) (preferences : Preferences)
    (jobStatuses : gmap Z JobStatusRecord) (x : Scored) :
  In x (filteredJobs jws filters showOnlyMatches hasPrefs preferences jobStatuses) <->
  In x jws /\
  forall k, filterSet k filters showOnlyMatches hasPrefs ->
            filterHolds k filters preferences jobStatuses x.
Proof.
  unfold filteredJobs. cbv zeta. rewrite In_arraySort.
  rewrite In_filter_if.
  rewrite (In_filter_option (f_status filters)
             (fun s x => bool_decide (statusOf jobStatuses (job x) = s))).
  rewrite In_filter_if.
  rewrite (In_filter_option (f_experience filters)
             (fun e x => bool_decide (experience (job x) = e))).
  rewrite (In_filter_option (f_mode filters)
             (fun m x => bool_decide (mode (job x) = m))).
  rewrite !In_filter_if.
  rewrite andb_true_iff, orb_true_iff, truthy_trim, !truthy_nonempty,
    !includes_ignoreCase, !String.eqb_eq, Z.leb_le.
  split.
  - intros (((((((Hin & Hkw) & Hloc) & Hmode) & Hexp) & Hsrc) & Hst) & Hthr).
    split; [exact Hin|]. intros k Hset. destruct k; simpl in *.
    + auto.
    + auto.
    + destruct (f_mode filters) as [m|]; [|congruence].
      specialize (Hmode m eq_refl). apply bool_decide_eq_true in Hmode. congruence.
    + destruct (f_experience filters) as [e|]; [|congruence].
      specialize (Hexp e eq_refl). apply bool_decide_eq_true in Hexp. congruence.
    + auto.
    + destruct (f_status filters) as [s|]; [|congruence].
      specialize (Hst s eq_refl). apply bool_decide_eq_true in Hst.
      unfold statusOf in Hst.
      destruct (jobStatuses !! id (job x)); congruence.
    + auto.
  - intros [Hin Hall]. repeat split; try exact Hin.
    + exact (Hall ByKeyword).
    + exact (Hall ByLocation).
    + intros m Hm. apply bool_decide_eq_true.
      pose proof (Hall ByMode) as H. simpl in H. rewrite Hm in H.
      assert (Some (mode (job x)) = Some m) as [= ->] by (apply H; congruence).
      reflexivity.
    + intros e He. apply bool_decide_eq_true.
      pose proof (Hall ByExperience) as H. simpl in H. rewrite He in H.
      assert (Some (experience (job x)) = Some e) as [= ->] by (apply H; congruence).
      reflexivity.
    + exact (Hall BySource).
    + intros s Hs. apply bool_decide_eq_true.
      pose proof (Hall ByStatus) as H. simpl in H. rewrite Hs in H.
      assert (Hset : Some s <> None) by congruence. specialize (H Hset).
      unfold statusOf. destruct (jobStatuses !! id (job x)); congruence.
    + exact (Hall AboveThreshold).
Qed.

Lemma nonBlank_empty : ~ nonBlank "".
Proof. intros (c & [] & _). Qed.

(** Discharges a filter that the configuration at hand leaves unset. *)
Ltac unset_filter H :=
  solve [ exfalso; apply nonBlank_empty; exact H
        | exfalso; apply H; reflexivity
        | destruct H as [H _]; discriminate H ].

(** C4. Filtering is conjunctive.  A scored job is in the view exactly when
    it is in the scored catalog and satisfies the predicate of every filter
    that is set (keyword: contained in the title or the company up to letter
    case; location, mode, experience, source: equal; status: equal to the
    job's current status; threshold: score at least the minimum).  Hence
    the view under a configuration is the intersection of the views under
    the configurations that keep one of its filters each, and in particular
    the view for location X and mode Y together is the intersection of the
    view for location X alone with the view for mode Y alone. *)
Theorem filteredJobs_conjunctive (jws : list Scored) (filters : Filters)
    (showOnlyMatches hasPrefs : bool) (preferences : Preferences)
    (jobStatuses : gmap Z JobStatusRecord) (x : Scored) :
  (In x (filteredJobs jws filters showOnlyMatches hasPrefs preferences jobStatuses) <->
   In x jws /\
   forall k, filterSet k filters showOnlyMatches hasPrefs ->
             filterHolds k filters preferences jobStatuses x) /\
  (In x (filteredJobs jws filters showOnlyMatches hasPrefs preferences jobStatuses) <->
   forall k, In x (filteredJobs jws (onlyFilter k filters)
                     (onlyToggle k showOnlyMatches) hasPrefs preferences jobStatuses)) /\
  (forall (X : string) (Y : JobMode) (key : SortKey),
     let byLocation :=
       {| keyword := ""; f_location := X; f_mode := None; f_experience := None;
          f_source := ""; sort := key; f_status := None |} in
     let byMode :=
       {| keyword := ""; f_location := ""; f_mode := Some Y; f_experience := None;
          f_source := ""; sort := key; f_status := None |} in
     let byBoth :=
       {| keyword := ""; f_location := X; f_mode := Some Y; f_experience := None;
          f_source := ""; sort := key; f_status := None |} in
     In x (filteredJobs jws byBoth false hasPrefs preferences jobStatuses) <->
     In x (filteredJobs jws byLocation false hasPrefs preferences jobStatuses) /\
     In x (filteredJobs jws byMode false hasPrefs preferences jobStatuses)).
Proof.
  split; [apply In_filteredJobs|]. split.
  - rewrite In_filteredJobs. split.
    + intros [Hin Hall] k0. apply In_filteredJobs. split; [exact Hin|].
      intros k Hset. specialize (Hall k).
      destruct k0, k; simpl in *; first [unset_filter Hset | exact (Hall Hset)].
    + intros H. split.
      { pose proof (H ByKeyword) as Hk. apply In_filteredJobs in Hk. tauto. }
      intros k Hset. specialize (H k). apply In_filteredJobs in H as [_ H].
      specialize (H k). destruct k; simpl in *; exact (H Hset).
  - intros X Y key byLocation byMode byBoth. rewrite !In_filteredJobs. split.
    + intros [Hin Hall]. split; (split; [exact Hin|]); intros k Hset;
        specialize (Hall k);
        destruct k; simpl in *; first [unset_filter Hset | apply Hall; congruence].
    + intros [[Hin Hloc] [_ Hmode]]. split; [exact Hin|]. intros k Hset.
      specialize (Hloc k). specialize (Hmode k).
      destruct k; simpl in *;
        first [unset_filter Hset | exact (Hloc Hset) | exact (Hmode Hset)].
Qed.

(** C8. A job without a record in the status store reports "Not Applied",
    and the status filter set to "Not Applied" lets it through: under such a
    filter the job is retained exactly when the remaining filters retain it,
    so filtering the catalog by that status alone includes every such job. *)
Theorem status_default_NotApplied
    (jobStatuses : gmap Z JobStatusRecord) (j : Job) :
  jobStatuses !! j.(id) = None ->
  statusOf jobStatuses j = NotApplied /\
  (forall jws filters showOnlyMatches hasPrefs preferences x,
     x.(job) = j -> filters.(f_status) = Some NotApplied ->
     (In x (filteredJobs jws filters showOnlyMatches hasPrefs preferences jobStatuses) <->
      In x (filteredJobs jws (updateStatus None filters) showOnlyMatches hasPrefs
              preferences jobStatuses))) /\
  (forall jobs preferences hasPrefs,
     In j jobs ->
     In {| job := j; score := computeMatchScore j preferences |}
        (filteredJobs (jobsWithScores jobs preferences)
           (updateStatus (Some NotApplied) noFilters) false hasPrefs
           preferences jobStatuses)).
Proof.
  intros Hnone.
  assert (Hstatus : statusOf jobStatuses j = NotApplied)
    by (unfold statusOf; rewrite Hnone; reflexivity).
  split; [exact Hstatus|]. split.
  - intros jws filters showOnlyMatches hasPrefs preferences x Hx Hf.
    rewrite !In_filteredJobs. split; intros [Hin Hall]; (split; [exact Hin|]);
      intros k Hset; specialize (Hall k); destruct k; simpl in *;
      first [ apply Hall; assumption
            | congruence
            | rewrite Hx, Hnone, Hf; reflexivity ].
  - intros jobs preferences hasPrefs Hin. apply In_filteredJobs. split.
    + unfold jobsWithScores. apply in_map_iff. exists j. auto.
    + intros k Hset. destruct k; simpl in *; first [unset_filter Hset | idtac].
      rewrite Hnone. reflexivity.
Qed.



(** ** Digest generator *)

Section SortedFacts.
Context {A : Type} (compare : A -> A -> Z) (before : A -> A -> Prop).
Hypothesis before_of_compare : forall a b, compare a b <= 0 -> before a b.
Hypothesis before_of_swap : forall a b, 0 < compare a b -> before b a.
Hypothesis before_trans : forall a b c, before a b -> before b c -> before a c.

Lemma insertSorted_sorted (x : A) (l : list A) :
  StronglySorted before l -> StronglySorted before (insertSorted compare x l).
Proof.
  induction l as [|y l IH]; intros Hs; simpl.
  - constructor; constructor.
  - inversion Hs as [|? ? Hl Hy]; subst.
    destruct (Z.leb_spec (compare x y) 0) as [Hle|Hgt].
    + constructor; [exact Hs|]. constructor; [auto|].
      rewrite List.Forall_forall in *. intros z Hz. eauto.
    + constructor; [auto|].
      rewrite List.Forall_forall in *. intros z Hz.
      apply (Permutation_in _ (insertSorted_perm compare x l)) in Hz.
      destruct Hz as [<-|Hz]; auto.
Qed.

Lemma arraySort_sorted (l : list A) :
  StronglySorted before (arraySort compare l).
Proof.
  induction l as [|x l IH]; simpl; [constructor|].
  apply insertSorted_sorted, IH.
Qed.
End SortedFacts.

Lemma digestCompare_before (a b : Scored) :
  digestCompare a b <= 0 -> digestBefore a b.
Proof.
  unfold digestCompare, digestBefore.
  destruct (Z.eqb_spec (score b) (score a)); simpl; lia.
Qed.

Lemma digestCompare_swap (a b : Scored) :
  0 < digestCompare a b -> digestBefore b a.
Proof.
  unfold digestCompare, digestBefore.
  destruct (Z.eqb_spec (score b) (score a)); simpl; lia.
Qed.

Lemma digestBefore_trans (a b c : Scored) :
  digestBefore a b -> digestBefore b c -> digestBefore a c.
Proof. unfold digestBefore. lia. Qed.

(** The digest ranking: by descending score, ties by ascending age. *)
Lemma digest_ranking_sorted (l : list Scored) :
  StronglySorted digestBefore (arraySort digestCompare l).
Proof.
  apply arraySort_sorted;
    [apply digestCompare_before | apply digestCompare_swap | apply digestBefore_trans].
Qed.

Lemma lengthZ_zero {A} (l : list A) : (lengthZ l =? 0) = true <-> l = [].
Proof.
  unfold lengthZ. rewrite Z.eqb_eq. destruct l; simpl; split; intros;
    try congruence; lia.
Qed.

Lemma lengthZ_zero_bool {A} (l : list A) :
  (lengthZ l =? 0) = match l with [] => true | _ :: _ => false end.
Proof.
  destruct l; [reflexivity|]. unfold lengthZ. apply Z.eqb_neq. simpl length. lia.
Qed.

Section DigestFacts.
Variable JOBS : list Job.
Variables digestKey dateStr : string.

(** Both branches of the computation store and expose the ten best of the
    ranked qualifying jobs; with no qualifying job that list is empty. *)
Lemma computeDigest_result preferences st storage :
  let matching :=
    List.filter (fun x => 0 <? x.(score)) (jobsWithScores JOBS preferences) in
  let snapshot := map toDigestItem (take 10 (arraySort digestCompare matching)) in
  computeDigest JOBS digestKey dateStr preferences st storage =
    ({| digest := Some {| date := dateStr; items := snapshot |};
        isGenerating := st.(isGenerating);
        noMatchesToday := lengthZ snapshot =? 0 |},
     <[digestKey := ItemsDocument snapshot]> storage).
Proof.
  intros matching snapshot. unfold computeDigest. cbv zeta.
  fold matching. subst snapshot. rewrite (lengthZ_zero_bool matching).
  destruct matching as [|x l] eqn:E; [reflexivity|].
  rewrite lengthZ_zero_bool.
  pose proof (arraySort_length digestCompare (x :: l)) as Hlen.
  destruct (arraySort digestCompare (x :: l)); [discriminate Hlen|].
  reflexivity.
Qed.

(** With non-empty preferences and no snapshot stored, generation runs
    the computation and returns. *)
Lemma generateDigest_computes preferences st storage :
  snapshotAbsent digestKey storage ->
  generateDigest JOBS digestKey dateStr preferences true st storage =
    Returned
      (setIsGenerating false
         (computeDigest JOBS digestKey dateStr preferences
            (setIsGenerating true st) storage).1,
       (computeDigest JOBS digestKey dateStr preferences
          (setIsGenerating true st) storage).2).
Proof.
  unfold snapshotAbsent, generateDigest, generateDigestBody. simpl negb. cbv iota zeta.
  destruct (storage !! digestKey) as [[]|]; intros H; try contradiction;
    simpl; destruct (computeDigest _ _ _ _ _ _); reflexivity.
Qed.

(** With a snapshot stored, generation exposes it and returns. *)
Lemma generateDigest_cached preferences st storage snapshot :
  storedSnapshot digestKey storage = Some snapshot ->
  generateDigest JOBS digestKey dateStr preferences true st storage =
    Returned
      ({| digest := Some {| date := dateStr; items := snapshot |};
          isGenerating := false;
          noMatchesToday := lengthZ snapshot =? 0 |},
       storage).
Proof.
  unfold storedSnapshot, generateDigest, generateDigestBody. simpl negb. cbv iota zeta.
  destruct (storage !! digestKey) as [[]|]; intros H; try discriminate.
  injection H as ->. reflexivity.
Qed.

Lemma generateDigest_fresh_result preferences st storage :
  snapshotAbsent digestKey storage ->
  let matching :=
    List.filter (fun x => 0 <? x.(score)) (jobsWithScores JOBS preferences) in
  let snapshot := map toDigestItem (take 10 (arraySort digestCompare matching)) in
  generateDigest JOBS digestKey dateStr preferences true st storage =
    Returned
      ({| digest := Some {| date := dateStr; items := snapshot |};
          isGenerating := false;
          noMatchesToday := lengthZ snapshot =? 0 |},
       <[digestKey := ItemsDocument snapshot]> storage).
Proof.
  intros Habsent matching snapshot.
  rewrite generateDigest_computes by assumption.
  rewrite computeDigest_result. reflexivity.
Qed.
End DigestFacts.

(** X26. When generation runs with non-empty preferences and the day's
    key is absent from the store, or holds the empty text or a JSON document
    that is not a snapshot, it returns, having scored the whole catalog, kept
    exactly the jobs whose score is positive, ranked them by descending score
    with ties in ascending days-since-posted, taken the first ten and
    persisted, under the key, the pair (job id, score) of each; the persisted
    snapshot has at most ten entries and is the one the page then shows. *)
Theorem generateDigest_fresh (JOBS : list Job) (digestKey dateStr : string)
    (preferences : Preferences) (st : DigestPage) (storage : gmap string Stored) :
  hasPreferences preferences = true ->
  snapshotAbsent digestKey storage ->
  exists ranked : list Scored,
    Permutation ranked
      (List.filter (fun x => 0 <? x.(score)) (jobsWithScores JOBS preferences)) /\
    (forall x, In x ranked <->
       exists j, In j JOBS /\ 0 < computeMatchScore j preferences /\
                 x = {| job := j; score := computeMatchScore j preferences |}) /\
    StronglySorted digestBefore ranked /\
    let snapshot :=
      map (fun x => {| jobId := x.(job).(id); itemScore := x.(score) |})
          (take 10 ranked) in
    generateDigest JOBS digestKey dateStr preferences (hasPreferences preferences)
      st storage =
      Returned
        ({| digest := Some {| date := dateStr; items := snapshot |};
            isGenerating := false;
            noMatchesToday := lengthZ snapshot =? 0 |},
         <[digestKey := ItemsDocument snapshot]> storage) /\
    (length snapshot <= 10)%nat.
Proof.
  intros Hprefs Habsent. rewrite Hprefs.
  set (matching := List.filter (fun x => 0 <? x.(score))
                     (jobsWithScores JOBS preferences)).
  exists (arraySort digestCompare matching).
  split; [apply arraySort_perm|]. split; [|split; [apply digest_ranking_sorted|]].
  - intros x. rewrite In_arraySort. unfold matching, jobsWithScores.
    rewrite List.filter_In, in_map_iff, Z.ltb_lt. split.
    + intros [(j & <- & Hj) Hpos]. exists j. simpl in Hpos. auto.
    + intros (j & Hj & Hpos & ->). simpl. eauto.
  - cbv zeta. split.
    + apply generateDigest_fresh_result. exact Habsent.
    + rewrite length_map, length_take. lia.
Qed.

(** C6. Generation is idempotent per day.  If a snapshot is stored under
    the day's key, generating leaves the store as it is whatever the
    preferences are, and (the preferences being non-empty, as generation
    requires) exposes exactly the stored snapshot, without rescoring: the
    result does not depend on the preferences.  Consequently a second call,
    even under other preferences, returns the state and the store the first
    call returned, and the snapshot shown is the stored one. *)
Theorem generateDigest_idempotent (JOBS : list Job) (digestKey dateStr : string)
    (st : DigestPage) (storage : gmap string Stored) :
  (forall snapshot preferences,
     storedSnapshot digestKey storage = Some snapshot ->
     (outcome (generateDigest JOBS digestKey dateStr preferences
                 (hasPreferences preferences) st storage)).2 = storage /\
     (hasPreferences preferences = true ->
      generateDigest JOBS digestKey dateStr preferences
        (hasPreferences preferences) st storage =
      Returned
        ({| digest := Some {| date := dateStr; items := snapshot |};
            isGenerating := false;
            noMatchesToday := lengthZ snapshot =? 0 |},
         storage))) /\
  (forall preferences1 preferences2 st1 storage1,
     hasPreferences preferences1 = true ->
     hasPreferences preferences2 = true ->
     generateDigest JOBS digestKey dateStr preferences1
       (hasPreferences preferences1) st storage = Returned (st1, storage1) ->
     generateDigest JOBS digestKey dateStr preferences2
       (hasPreferences preferences2) st1 storage1 = Returned (st1, storage1) /\
     option_map items st1.(digest) = storedSnapshot digestKey storage1 /\
     storedSnapshot digestKey storage1 <> None).
Proof.
  split.
  - intros snapshot preferences Hsnap.
    destruct (hasPreferences preferences) eqn:Hp.
    + rewrite (generateDigest_cached _ _ _ _ _ _ _ Hsnap). auto.
    + split; [reflexivity | discriminate].
  - intros p1 p2 st1 storage1 Hp1 Hp2. rewrite Hp1, Hp2. intros Hfirst.
    assert (Hstored : exists snapshot,
               storedSnapshot digestKey storage1 = Some snapshot /\
               st1 = {| digest := Some {| date := dateStr; items := snapshot |};
                        isGenerating := false;
                        noMatchesToday := lengthZ snapshot =? 0 |}).
    { destruct (storedSnapshot digestKey storage) as [snapshot|] eqn:Hsnap.
      - rewrite (generateDigest_cached _ _ _ _ _ _ _ Hsnap) in Hfirst.
        injection Hfirst as <- <-. eauto.
      - assert (Habsent : snapshotAbsent digestKey storage).
        { unfold snapshotAbsent. unfold storedSnapshot in Hsnap.
          unfold generateDigest, generateDigestBody in Hfirst.
          destruct (storage !! digestKey) as [[]|]; try exact I;
            simpl in Hfirst; congruence. }
        rewrite (generateDigest_fresh_result _ _ _ _ _ _ Habsent) in Hfirst.
        injection Hfirst as <- <-. eexists. split; [|reflexivity].
        unfold storedSnapshot. rewrite lookup_insert_eq. reflexivity. }
    destruct Hstored as (snapshot & Hsnap & ->).
    rewrite (generateDigest_cached _ _ _ _ _ _ _ Hsnap).
    rewrite Hsnap. simpl. repeat split. discriminate.
Qed.

(** X27. When generation runs with non-empty preferences, the day's key
    is absent from the store (or holds the empty text or a JSON document
    that is not a snapshot) and every job of the catalog scores 0, it
    persists the empty snapshot [{items: []}] under the key and shows the
    "no matches" state; the day is then in the Empty state, which differs
    from the Uninitialized state it was in. *)
Theorem generateDigest_empty (JOBS : list Job) (digestKey dateStr : string)
    (preferences : Preferences) (st : DigestPage) (storage : gmap string Stored) :
  hasPreferences preferences = true ->
  snapshotAbsent digestKey storage ->
  (forall j, In j JOBS -> computeMatchScore j preferences = 0) ->
  generateDigest JOBS digestKey dateStr preferences (hasPreferences preferences)
    st storage =
    Returned
      ({| digest := Some {| date := dateStr; items := [] |};
          isGenerating := false;
          noMatchesToday := true |},
       <[digestKey := ItemsDocument []]> storage) /\
  digestPhase digestKey storage = Uninitialized /\
  digestPhase digestKey (<[digestKey := ItemsDocument []]> storage) = Empty /\
  Empty <> Uninitialized.
Proof.
  intros Hprefs Habsent Hzero. rewrite Hprefs.
  assert (Hnone : List.filter (fun x => 0 <? x.(score))
                    (jobsWithScores JOBS preferences) = []).
  { unfold jobsWithScores. induction JOBS as [|j l IH]; [reflexivity|].
    simpl. rewrite (Hzero j) by (left; reflexivity). simpl.
    apply IH. intros j' Hj'. apply Hzero. right. exact Hj'. }
  split; [|split; [|split]].
  - rewrite (generateDigest_fresh_result _ _ _ _ _ _ Habsent), Hnone. reflexivity.
  - unfold digestPhase, storedSnapshot. unfold snapshotAbsent in Habsent.
    destruct (storage !! digestKey) as [[]|]; try reflexivity; contradiction.
  - unfold digestPhase, storedSnapshot. rewrite lookup_insert_eq. reflexivity.
  - discriminate.
Qed.

(** C5, at the input where the code departs from it.  When generation
    runs with non-empty preferences and the text stored under the day's key
    is not JSON, no snapshot exists for the key and the day is
    Uninitialized; yet nothing is scored and nothing is persisted:
    [JSON.parse] throws, the [try] of [generateDigest] has no [catch] (the
    mount effect has one), and the store keeps the text it had. *)
Theorem generateDigest_unparsable (JOBS : list Job) (digestKey dateStr : string)
    (preferences : Preferences) (st : DigestPage) (storage : gmap string Stored) :
  hasPreferences preferences = true ->
  storage !! digestKey = Some Unparsable ->
  storedSnapshot digestKey storage = None /\
  digestPhase digestKey storage = Uninitialized /\
  generateDigest JOBS digestKey dateStr preferences (hasPreferences preferences)
    st storage = Thrown (setIsGenerating false st, storage) /\
  storedSnapshot digestKey
    (outcome (generateDigest JOBS digestKey dateStr preferences
                (hasPreferences preferences) st storage)).2 = None.
Proof.
  intros Hprefs Hbad. rewrite Hprefs.
  unfold digestPhase, storedSnapshot, generateDigest, generateDigestBody.
  rewrite Hbad. simpl. rewrite Hbad. auto.
Qed.

(** C7, at the input where the code departs from it.  With non-empty
    preferences, every job scoring 0 and a text that is not JSON under the
    day's key, the day is Uninitialized and stays so: generation throws out
    of [JSON.parse], the empty snapshot is not persisted and the "no
    matches" state is not entered. *)
Theorem generateDigest_allZero_unparsable (JOBS : list Job)
    (digestKey dateStr : string) (preferences : Preferences)
    (st : DigestPage) (storage : gmap string Stored) :
  hasPreferences preferences = true ->
  (forall j, In j JOBS -> computeMatchScore j preferences = 0) ->
  storage !! digestKey = Some Unparsable ->
  let after :=
    outcome (generateDigest JOBS digestKey dateStr preferences
               (hasPreferences preferences) st storage) in
  digestPhase digestKey storage = Uninitialized /\
  after.2 = storage /\
  after.2 !! digestKey <> Some (ItemsDocument []) /\
  digestPhase digestKey after.2 <> Empty /\
  after.1.(digest) = st.(digest) /\
  after.1.(noMatchesToday) = st.(noMatchesToday).
Proof.
  intros Hprefs _ Hbad after. subst after. rewrite Hprefs.
  unfold digestPhase, storedSnapshot, generateDigest, generateDigestBody.
  rewrite Hbad. simpl. rewrite Hbad. repeat split; discriminate.
Qed.

(** ** Saved set *)

Lemma existsb_Zeqb_In (id : Z) (l : list Z) :
  existsb (Z.eqb id) l = true <-> In id l.
Proof.
  rewrite existsb_exists. split.
  - intros (y & Hy & Heq). apply Z.eqb_eq in Heq. congruence.
  - intros Hin. exists id. split; [exact Hin | apply Z.eqb_refl].
Qed.

Lemma handleSaveJob_present id prev storage :
  In id prev -> handleSaveJob id prev storage = (prev, storage).
Proof.
  intros Hin. unfold handleSaveJob.
  apply existsb_Zeqb_In in Hin. rewrite Hin. reflexivity.
Qed.

Lemma handleSaveJob_new id prev storage :
  ~ In id prev ->
  handleSaveJob id prev storage =
    (prev ++ [id], <[savedJobsKey := IdArray (prev ++ [id])]> storage).
Proof.
  intros Hnot. unfold handleSaveJob.
  destruct (existsb (Z.eqb id) prev) eqn:E; [|reflexivity].
  apply existsb_Zeqb_In in E. contradiction.
Qed.

Lemma NoDup_snoc (id : Z) (prev : list Z) :
  List.NoDup prev -> ~ In id prev -> List.NoDup (prev ++ [id]).
Proof.
  induction prev as [|a prev IH]; intros Hnd Hnot; simpl.
  - constructor; [intros [] | constructor].
  - inversion Hnd as [|? ? Ha Hprev]; subst. constructor.
    + intros Hin. apply in_app_or in Hin as [Hin|[<-|[]]].
      * exact (Ha Hin).
      * apply Hnot. left. reflexivity.
    + apply IH; [exact Hprev|]. intros Hin. apply Hnot. right. exact Hin.
Qed.

(** A save keeps the list and its persisted record free of duplicates. *)
Lemma handleSaveJob_invariant id prev storage :
  List.NoDup prev -> storedIdsDistinct storage ->
  List.NoDup (handleSaveJob id prev storage).1 /\
  storedIdsDistinct (handleSaveJob id prev storage).2.
Proof.
  intros Hnd Hst. destruct (in_dec Z.eq_dec id prev) as [Hin|Hnot].
  - rewrite handleSaveJob_present by assumption. auto.
  - rewrite handleSaveJob_new by assumption. simpl.
    pose proof (NoDup_snoc id prev Hnd Hnot) as Hnext.
    split; [exact Hnext|]. intros ids Hids.
    rewrite lookup_insert_eq in Hids. injection Hids as <-. exact Hnext.
Qed.

Lemma savedStep_invariant (s : list Z * gmap string Stored) (e : SavedEvent) :
  List.NoDup s.1 -> storedIdsDistinct s.2 ->
  List.NoDup (savedStep s e).1 /\ storedIdsDistinct (savedStep s e).2.
Proof.
  intros Hnd Hst. destruct e as [|id]; simpl.
  - split; [|exact Hst]. unfold loadSavedJobs.
    destruct (s.2 !! savedJobsKey) as [[]|] eqn:E; auto.
  - apply handleSaveJob_invariant; assumption.
Qed.

(** C10. The saved list never holds an id twice.  Saving an id that is
    already there changes neither the list nor the persisted record; saving
    a new id appends it, once, and persists the new list; so a save keeps a
    duplicate-free list duplicate-free, and so does every sequence of saves
    and reloads of the persisted record. *)
Theorem savedJobIds_distinct (prev : list Z) (storage : gmap string Stored) (id : Z) :
  (In id prev -> handleSaveJob id prev storage = (prev, storage)) /\
  (~ In id prev ->
     handleSaveJob id prev storage =
       (prev ++ [id], <[savedJobsKey := IdArray (prev ++ [id])]> storage) /\
     count_occ Z.eq_dec (handleSaveJob id prev storage).1 id = 1%nat) /\
  (List.NoDup prev -> List.NoDup (handleSaveJob id prev storage).1) /\
  (List.NoDup prev -> storedIdsDistinct storage ->
   forall events,
     List.NoDup (savedRun events (prev, storage)).1 /\
     storedIdsDistinct (savedRun events (prev, storage)).2).
Proof.
  split; [apply handleSaveJob_present|]. split; [|split].
  - intros Hnot. split; [apply handleSaveJob_new, Hnot|].
    rewrite handleSaveJob_new by assumption. simpl.
    rewrite count_occ_app. simpl.
    rewrite (proj1 (count_occ_not_In Z.eq_dec prev id) Hnot).
    destruct (Z.eq_dec id id); [reflexivity | congruence].
  - intros Hnd. destruct (in_dec Z.eq_dec id prev) as [Hin|Hnot].
    + rewrite handleSaveJob_present by assumption. exact Hnd.
    + rewrite handleSaveJob_new by assumption. apply NoDup_snoc; assumption.
  - intros Hnd Hst events. unfold savedRun.
    change prev with (prev, storage).1 in Hnd.
    change storage with (prev, storage).2 in Hst.
    revert Hnd Hst. generalize (prev, storage).
    induction events as [|e events IH]; intros s Hnd Hst; simpl; [auto|].
    destruct (savedStep_invariant s e Hnd Hst) as [Hnd' Hst']. apply IH; assumption.
Qed.

(* ===================================================================== *)
(** * The statements at work on sample data                               *)
(* ===================================================================== *)

(** The normalisation of comma-separated text: split, trim, lower-case,
    drop the empty tokens. *)
Example splitCommaSeparated_sample :
  splitCommaSeparated " React , ,SQL,, java " = ["react"; "sql"; "java"].
Proof. reflexivity. Qed.

Example splitCommaSeparated_blank : splitCommaSeparated "  " = [].
Proof. reflexivity. Qed.

(** Empty preferences leave the recency and source bonuses only. *)
Example computeMatchScore_default_sample :
  computeMatchScore sampleJob defaultPreferences = 10 /\
  computeMatchScore staleJob defaultPreferences = 0.
Proof. split; reflexivity. Qed.

(** Every criterion satisfied at once: 100, the cap. *)
Example computeMatchScore_full_sample :
  computeMatchScore sampleJob
    {| roleKeywords := "react, dashboards"; preferredLocations := ["Pune"];
       preferredModes := [Remote]; experienceLevel := Some Exp1to3;
       prefSkillsText := "sql"; minMatchScore := 40 |} = 100.
Proof. reflexivity. Qed.

(** The regular expression takes the first run of digits only. *)
Example extractSalaryValue_range_sample :
  extractSalaryValue "Rs 8-12 LPA" = 800000 /\
  extractSalaryValue "15K/month" = 15000 /\
  extractSalaryValue "45000" = 45000.
Proof. repeat split; reflexivity. Qed.

(** The three sort keys on a two-job catalog. *)
Example filteredJobs_sort_sample :
  let jws := jobsWithScores [staleJob; sampleJob] punePreferences in
  map (fun x => x.(job).(id))
      (filteredJobs jws noFilters false true punePreferences ∅) = [1; 2] /\
  map (fun x => x.(job).(id))
      (filteredJobs jws
         {| keyword := ""; f_location := ""; f_mode := None; f_experience := None;
            f_source := ""; sort := salary; f_status := None |}
         false true punePreferences ∅) = [1; 2] /\
  map (fun x => x.(job).(id))
      (filteredJobs jws
         {| keyword := "BACK"; f_location := ""; f_mode := None; f_experience := None;
            f_source := ""; sort := matchScore; f_status := None |}
         false true punePreferences ∅) = [2].
Proof. repeat split; vm_compute; reflexivity. Qed.

(** A day whose key holds a text that is not JSON: generation throws and
    the store still holds that text, whether or not any job qualifies. *)
Lemma generateDigest_unparsable_sample :
  storedSnapshot todayKey {[ todayKey := Unparsable ]} = None /\
  digestPhase todayKey {[ todayKey := Unparsable ]} = Uninitialized /\
  generateDigest [staleJob; sampleJob] todayKey today punePreferences
    (hasPreferences punePreferences) initialDigestPage {[ todayKey := Unparsable ]} =
    Thrown (setIsGenerating false initialDigestPage, {[ todayKey := Unparsable ]}) /\
  storedSnapshot todayKey
    (outcome (generateDigest [staleJob; sampleJob] todayKey today punePreferences
                (hasPreferences punePreferences) initialDigestPage
                {[ todayKey := Unparsable ]})).2 = None.
Proof.
  apply (generateDigest_unparsable [staleJob; sampleJob] todayKey today
           punePreferences initialDigestPage {[ todayKey := Unparsable ]}).
  - reflexivity.
  - reflexivity.
Defined.

Lemma generateDigest_allZero_unparsable_sample :
  let after :=
    outcome (generateDigest [staleJob] todayKey today punePreferences
               (hasPreferences punePreferences) initialDigestPage
               {[ todayKey := Unparsable ]}) in
  digestPhase todayKey {[ todayKey := Unparsable ]} = Uninitialized /\
  after.2 = {[ todayKey := Unparsable ]} /\
  after.2 !! todayKey <> Some (ItemsDocument []) /\
  digestPhase todayKey after.2 <> Empty /\
  after.1.(digest) = initialDigestPage.(digest) /\
  after.1.(noMatchesToday) = initialDigestPage.(noMatchesToday).
Proof.
  apply (generateDigest_allZero_unparsable [staleJob] todayKey today punePreferences
           initialDigestPage {[ todayKey := Unparsable ]}).
  - reflexivity.
  - intros j [<-|[]]. reflexivity.
  - reflexivity.
Defined.

(** Stating a preferred location that the job has raises its score. *)
Lemma computeMatchScore_monotonic_sample :
  computeMatchScore sampleJob defaultPreferences <=
  computeMatchScore sampleJob punePreferences.
Proof.
  apply (computeMatchScore_monotonic sampleJob defaultPreferences punePreferences
           PreferredLocation).
  - reflexivity.
  - reflexivity.
  - intros c' Hc'. destruct c'; try reflexivity.
    exfalso. apply Hc'. reflexivity.
Defined.

(** "12k": the first digit run is "12", there is no "lpa" but a "k". *)
Lemma extractSalaryValue_spec_sample :
  extractSalaryValue "12k" = decimalValue (list_ascii_of_string "12") * 1000.
Proof.
  destruct (extractSalaryValue_spec "12k") as (_ & _ & Hrun & _).
  destruct (Hrun "12") as (_ & Hk & _).
  - exists "", "k". split; [reflexivity|]. split; [constructor|].
    split; [discriminate|]. split; [|reflexivity].
    repeat constructor.
  - apply Hk.
    + apply (includes_ignoreCase_false "12k" "lpa"). reflexivity.
    + apply (includes_ignoreCase "12k" "k"). reflexivity.
    + vm_compute. discriminate.
Defined.

(** A first generation over a two-job catalog. *)
Lemma generateDigest_fresh_sample :
  exists ranked : list Scored,
    Permutation ranked
      (List.filter (fun x => 0 <? x.(score))
         (jobsWithScores [staleJob; sampleJob] punePreferences)) /\
    (forall x, In x ranked <->
       exists j, In j [staleJob; sampleJob] /\
                 0 < computeMatchScore j punePreferences /\
                 x = {| job := j; score := computeMatchScore j punePreferences |}) /\
    StronglySorted digestBefore ranked /\
    let snapshot :=
      map (fun x => {| jobId := x.(job).(id); itemScore := x.(score) |})
          (take 10 ranked) in
    generateDigest [staleJob; sampleJob] todayKey today punePreferences
      (hasPreferences punePreferences) initialDigestPage ∅ =
      Returned
        ({| digest := Some {| date := today; items := snapshot |};
            isGenerating := false;
            noMatchesToday := lengthZ snapshot =? 0 |},
         <[todayKey := ItemsDocument snapshot]> ∅) /\
    (length snapshot <= 10)%nat.
Proof.
  apply (generateDigest_fresh [staleJob; sampleJob] todayKey today punePreferences
           initialDigestPage ∅).
  - reflexivity.
  - unfold snapshotAbsent. rewrite lookup_empty. exact I.
Defined.

(** Generating over a stored snapshot, under preferences that would score
    differently, shows the stored snapshot and leaves the store alone; and a
    second call after a first one, under other preferences, changes
    nothing. *)
Lemma generateDigest_idempotent_sample :
  generateDigest [staleJob; sampleJob] todayKey today punePreferences
    (hasPreferences punePreferences) initialDigestPage populatedStorage =
  Returned
    ({| digest := Some {| date := today;
                          items := [{| jobId := 2; itemScore := 15 |}] |};
        isGenerating := false;
        noMatchesToday := false |},
     populatedStorage) /\
  let first :=
    outcome (generateDigest [staleJob; sampleJob] todayKey today punePreferences
               (hasPreferences punePreferences) initialDigestPage ∅) in
  generateDigest [staleJob; sampleJob] todayKey today
    (setPreferredLocations ["Delhi"] defaultPreferences)
    (hasPreferences (setPreferredLocations ["Delhi"] defaultPreferences))
    first.1 first.2 = Returned (first.1, first.2).
Proof.
  split.
  - destruct (generateDigest_idempotent [staleJob; sampleJob] todayKey today
                initialDigestPage populatedStorage) as [Hcached _].
    destruct (Hcached [{| jobId := 2; itemScore := 15 |}] punePreferences) as [_ H].
    + reflexivity.
    + apply H. reflexivity.
  - intros first.
    destruct (generateDigest_idempotent [staleJob; sampleJob] todayKey today
                initialDigestPage ∅) as [_ Htwice].
    apply (Htwice punePreferences (setPreferredLocations ["Delhi"] defaultPreferences)
             first.1 first.2).
    + reflexivity.
    + reflexivity.
    + reflexivity.
Defined.

(** A catalog whose only job scores 0, and no snapshot yet. *)
Lemma generateDigest_empty_sample :
  generateDigest [staleJob] todayKey today punePreferences
    (hasPreferences punePreferences) initialDigestPage ∅ =
    Returned
      ({| digest := Some {| date := today; items := [] |};
          isGenerating := false;
          noMatchesToday := true |},
       <[todayKey := ItemsDocument []]> ∅) /\
  digestPhase todayKey ∅ = Uninitialized /\
  digestPhase todayKey (<[todayKey := ItemsDocument []]> ∅) = Empty /\
  Empty <> Uninitialized.
Proof.
  apply (generateDigest_empty [staleJob] todayKey today punePreferences
           initialDigestPage ∅).
  - reflexivity.
  - unfold snapshotAbsent. rewrite lookup_empty. exact I.
  - intros j [<-|[]]. reflexivity.
Defined.

(** With an empty status store the sample job reports "Not Applied" and
    passes the "Not Applied" filter. *)
Lemma status_default_NotApplied_sample :
  statusOf ∅ sampleJob = NotApplied /\
  In {| job := sampleJob; score := computeMatchScore sampleJob punePreferences |}
     (filteredJobs (jobsWithScores [staleJob; sampleJob] punePreferences)
        (updateStatus (Some NotApplied) noFilters) false true punePreferences ∅).
Proof.
  destruct (status_default_NotApplied ∅ sampleJob) as (Hstatus & _ & Hin).
  - apply lookup_empty.
  - split; [exact Hstatus|]. apply Hin. right. left. reflexivity.
Defined.


(** Saving 3 on top of [1; 2] appends it; saving 2 again changes nothing. *)
Lemma savedJobIds_distinct_sample :
  handleSaveJob 2 [1; 2] ∅ = ([1; 2], ∅) /\
  (handleSaveJob 3 [1; 2] ∅).1 = [1; 2; 3] /\
  List.NoDup (handleSaveJob 3 [1; 2] ∅).1 /\
  List.NoDup (savedRun [ClickSave 3; MountLoad; ClickSave 1] ([1; 2], ∅)).1.
Proof.
  assert (Hnd : List.NoDup [1; 2]).
  { constructor; [intros [H|[]]; discriminate H|].
    constructor; [intros []|constructor]. }
  destruct (savedJobIds_distinct [1; 2] ∅ 2) as (Hpresent & _).
  destruct (savedJobIds_distinct [1; 2] ∅ 3) as (_ & Hnew & Hkeep & Hrun).
  split; [apply Hpresent; right; left; reflexivity|].
  split.
  - destruct Hnew as [Heq _].
    + intros [H|[H|[]]]; discriminate H.
    + rewrite Heq. reflexivity.
  - split; [apply Hkeep, Hnd|].
    apply Hrun; [exact Hnd|]. intros ids Hids.
    rewrite lookup_empty in Hids. discriminate Hids.
Defined.

(* ===================================================================== *)
(** * Further properties of the code                                      *)
(* ===================================================================== *)

(** ** Characters *)

(** Decides a statement about one character by going through all 256. *)
Ltac by_cases_on_char c :=
  destruct c as [[] [] [] [] [] [] [] []]; vm_compute; try reflexivity;
  try discriminate; auto.

Lemma lowerChar_idempotent (c : ascii) : lowerChar (lowerChar c) = lowerChar c.
Proof. by_cases_on_char c. Qed.

Lemma isSpace_lowerChar (c : ascii) : isSpace (lowerChar c) = isSpace c.
Proof. by_cases_on_char c. Qed.

Lemma comma_lowerChar (c : ascii) :
  Ascii.eqb (lowerChar c) ","%char = Ascii.eqb c ","%char.
Proof. by_cases_on_char c. Qed.

Lemma isUpper_lowerChar (c : ascii) : isUpper (lowerChar c) = false.
Proof. by_cases_on_char c. Qed.

Lemma space_not_comma (c : ascii) :
  isSpace c = true -> Ascii.eqb c ","%char = false.
Proof. by_cases_on_char c. Qed.

Lemma digit_value_range (c : ascii) :
  isDigit c = true -> 0 <= digitValue c <= 9.
Proof.
  unfold isDigit, digitValue. intros H.
  apply andb_true_iff in H as [H1 H2]. apply Z.leb_le in H1, H2. lia.
Qed.

(** ** Normalisation of comma-separated text *)

Lemma toLowerCase_idempotent (s : string) :
  toLowerCase (toLowerCase s) = toLowerCase s.
Proof.
  induction s as [|c r IH]; simpl; [reflexivity|].
  rewrite lowerChar_idempotent, IH. reflexivity.
Qed.

Lemma trimStart_toLowerCase (s : string) :
  trimStart (toLowerCase s) = toLowerCase (trimStart s).
Proof.
  induction s as [|c r IH]; simpl; [reflexivity|].
  rewrite isSpace_lowerChar. destruct (isSpace c); [exact IH | reflexivity].
Qed.

Lemma trimEnd_toLowerCase (s : string) :
  trimEnd (toLowerCase s) = toLowerCase (trimEnd s).
Proof.
  induction s as [|c r IH]; simpl; [reflexivity|].
  rewrite IH, isSpace_lowerChar.
  destruct (trimEnd r); simpl; [destruct (isSpace c)|]; reflexivity.
Qed.

Lemma trim_toLowerCase (s : string) :
  trim (toLowerCase s) = toLowerCase (trim s).
Proof. unfold trim. rewrite trimStart_toLowerCase, trimEnd_toLowerCase. reflexivity. Qed.

Lemma split_toLowerCase (s : string) :
  split ","%char (toLowerCase s) = map toLowerCase (split ","%char s).
Proof.
  induction s as [|c r IH]; simpl; [reflexivity|].
  rewrite comma_lowerChar, IH.
  destruct (Ascii.eqb c ","%char); [reflexivity|].
  destruct (split ","%char r); reflexivity.
Qed.

(** The tokens do not depend on the letter case of the text. *)
Lemma splitCommaSeparated_toLowerCase (s : string) :
  splitCommaSeparated (toLowerCase s) = splitCommaSeparated s.
Proof.
  unfold splitCommaSeparated. rewrite split_toLowerCase, map_map.
  f_equal. apply map_ext. intros piece.
  rewrite trim_toLowerCase. apply toLowerCase_idempotent.
Qed.

Lemma splitCommaSeparated_same_case (s s' : string) :
  toLowerCase s = toLowerCase s' ->
  splitCommaSeparated s = splitCommaSeparated s'.
Proof.
  intros H. rewrite <- (splitCommaSeparated_toLowerCase s),
    <- (splitCommaSeparated_toLowerCase s'), H. reflexivity.
Qed.

Lemma split_without_separator (sep : ascii) (s : string) :
  Forall (fun c => Ascii.eqb c sep = false) (list_ascii_of_string s) ->
  split sep s = [s].
Proof.
  induction s as [|c r IH]; intros H; [reflexivity|].
  simpl in H. inversion H as [|? ? Hc Hr]; subst.
  simpl. rewrite Hc, (IH Hr). reflexivity.
Qed.

Lemma split_pieces (sep : ascii) (s : string) :
  Forall (fun piece => ~ In sep (list_ascii_of_string piece)) (split sep s).
Proof.
  induction s as [|c r IH]; simpl.
  - constructor; [intros [] | constructor].
  - destruct (Ascii.eqb_spec c sep) as [->|Hne].
    + constructor; [intros [] | exact IH].
    + destruct (split sep r) as [|w ws].
      * constructor; [|constructor]. simpl. intros [H|[]]. congruence.
      * inversion IH as [|? ? Hw Hws]; subst. constructor; [|exact Hws].
        simpl. intros [H|H]; [congruence | exact (Hw H)].
Qed.

Lemma trimStart_chars (s : string) (c : ascii) :
  In c (list_ascii_of_string (trimStart s)) -> In c (list_ascii_of_string s).
Proof.
  induction s as [|d r IH]; simpl; [auto|].
  destruct (isSpace d); simpl; auto.
Qed.

Lemma trimEnd_chars (s : string) (c : ascii) :
  In c (list_ascii_of_string (trimEnd s)) -> In c (list_ascii_of_string s).
Proof.
  induction s as [|d r IH]; simpl; [auto|].
  destruct (trimEnd r) as [|e r'].
  - destruct (isSpace d); simpl; [intros [] | intros [H|[]]; auto].
  - simpl in *. intros [H|H]; auto.
Qed.

Lemma toLowerCase_comma (s : string) :
  In ","%char (list_ascii_of_string (toLowerCase s)) ->
  In ","%char (list_ascii_of_string s).
Proof.
  induction s as [|d r IH]; simpl; [auto|].
  intros [H|H]; [left | right; auto].
  apply Ascii.eqb_eq. rewrite <- comma_lowerChar. apply Ascii.eqb_eq. exact H.
Qed.

Lemma trimStart_fixed (s : string) :
  (forall c r, s = String c r -> isSpace c = false) -> trimStart s = s.
Proof.
  destruct s as [|c r]; intros H; [reflexivity|].
  simpl. rewrite (H c r eq_refl). reflexivity.
Qed.

Lemma trimStart_head (s : string) (c : ascii) (r : string) :
  trimStart s = String c r -> isSpace c = false.
Proof.
  induction s as [|d s IH]; simpl; [discriminate|].
  destruct (isSpace d) eqn:Ed; [exact IH|].
  intros [= -> _]. exact Ed.
Qed.

Lemma trimEnd_head (s : string) :
  (forall c r, s = String c r -> isSpace c = false) ->
  forall c r, trimEnd s = String c r -> isSpace c = false.
Proof.
  destruct s as [|d s]; intros H c r; simpl; [discriminate|].
  specialize (H d s eq_refl). rewrite H.
  destruct (trimEnd s); intros [= <- _]; exact H.
Qed.

Lemma trimEnd_idempotent (s : string) : trimEnd (trimEnd s) = trimEnd s.
Proof.
  induction s as [|c r IH]; simpl; [reflexivity|].
  destruct (trimEnd r) as [|e r'] eqn:E.
  - destruct (isSpace c) eqn:Ec; simpl; [reflexivity|]. rewrite Ec. reflexivity.
  - cbn [trimEnd]. cbn [trimEnd] in IH. rewrite IH. reflexivity.
Qed.

Lemma trim_idempotent (s : string) : trim (trim s) = trim s.
Proof.
  unfold trim. rewrite (trimStart_fixed (trimEnd (trimStart s))).
  - apply trimEnd_idempotent.
  - apply trimEnd_head. apply trimStart_head.
Qed.

(** X1. Every token [splitCommaSeparated] returns is in normal form: it is
    not empty, has no upper-case letter, no white space at either end and
    no comma. *)
Theorem splitCommaSeparated_tokens (value token : string) :
  In token (splitCommaSeparated value) ->
  token <> "" /\
  toLowerCase token = token /\
  trim token = token /\
  ~ In ","%char (list_ascii_of_string token).
Proof.
  unfold splitCommaSeparated. rewrite List.filter_In, in_map_iff.
  intros [(piece & <- & Hpiece) Htruthy]. repeat split.
  - apply truthy_nonempty. exact Htruthy.
  - apply toLowerCase_idempotent.
  - rewrite trim_toLowerCase, trim_idempotent. reflexivity.
  - intros Hcomma. apply toLowerCase_comma in Hcomma.
    unfold trim in Hcomma. apply trimEnd_chars, trimStart_chars in Hcomma.
    pose proof (split_pieces ","%char value) as Hall.
    rewrite List.Forall_forall in Hall. exact (Hall piece Hpiece Hcomma).
Qed.

(** ** Match scorer, further *)

Lemma splitCommaSeparated_blank_text (s : string) :
  truthy (trim s) = false -> splitCommaSeparated s = [].
Proof.
  intros Hblank.
  assert (Hspaces : Forall (fun c => isSpace c = true) (list_ascii_of_string s)).
  { apply trimStart_spaces, trimEnd_empty. unfold trim in Hblank.
    destruct (trimEnd (trimStart s)); [reflexivity | discriminate]. }
  unfold splitCommaSeparated. rewrite split_without_separator.
  - simpl. destruct (trim s); [reflexivity | discriminate].
  - eapply List.Forall_impl; [|exact Hspaces]. apply space_not_comma.
Qed.

Lemma lengthZ_not_positive {A} (l : list A) : (0 <? lengthZ l) = false -> l = [].
Proof.
  unfold lengthZ. intros H. apply Z.ltb_ge in H.
  destruct l; [reflexivity | simpl in H; lia].
Qed.

(** X2. With no preference stated (what [hasPreferences] tests), the score
    of a job is its recency bonus plus its source bonus, whatever the
    threshold: at most 10, and not necessarily 0. *)
Theorem computeMatchScore_no_preferences (j : Job) (preferences : Preferences) :
  hasPreferences preferences = false ->
  computeMatchScore j preferences =
    (if j.(postedDaysAgo) <=? 2 then 5 else 0) +
    (if String.eqb j.(source) "LinkedIn" then 5 else 0) /\
  computeMatchScore j preferences <= 10.
Proof.
  unfold hasPreferences. intros H.
  repeat (apply orb_false_iff in H; destruct H as [H ?]).
  assert (Hscore : computeMatchScore j preferences =
    (if j.(postedDaysAgo) <=? 2 then 5 else 0) +
    (if String.eqb j.(source) "LinkedIn" then 5 else 0)).
  { rewrite computeMatchScore_sum.
    unfold contributions, allCriteria, contribution, satisfied. simpl map.
    rewrite (splitCommaSeparated_blank_text _ H),
      (splitCommaSeparated_blank_text _ H3),
      (lengthZ_not_positive _ H2), (lengthZ_not_positive _ H1).
    destruct (experienceLevel preferences); [discriminate|].
    rewrite existsb_arrayIncludes_nil. simpl.
    destruct (postedDaysAgo j <=? 2), (String.eqb (source j) "LinkedIn");
      reflexivity. }
  split; [exact Hscore|]. rewrite Hscore.
  destruct (postedDaysAgo j <=? 2), (String.eqb (source j) "LinkedIn"); lia.
Qed.

(** X3. The score is 100 exactly when all eight criteria are satisfied and
    0 exactly when none is; in between, it is the sum of the points of the
    satisfied ones, so a satisfied criterion always shows in the score. *)
Theorem computeMatchScore_extremes (j : Job) (preferences : Preferences) :
  (computeMatchScore j preferences = 100 <->
   forall c, satisfied c j preferences = true) /\
  (computeMatchScore j preferences = 0 <->
   forall c, satisfied c j preferences = false) /\
  (forall c, satisfied c j preferences = true ->
             points c <= computeMatchScore j preferences).
Proof.
  rewrite computeMatchScore_sum. unfold contributions, allCriteria.
  simpl map. simpl fold_right.
  pose proof (contribution_bounds j preferences RoleInTitle) as B1.
  pose proof (contribution_bounds j preferences RoleInDescription) as B2.
  pose proof (contribution_bounds j preferences PreferredLocation) as B3.
  pose proof (contribution_bounds j preferences PreferredMode) as B4.
  pose proof (contribution_bounds j preferences ExperienceLevel) as B5.
  pose proof (contribution_bounds j preferences SkillOverlap) as B6.
  pose proof (contribution_bounds j preferences Recency) as B7.
  pose proof (contribution_bounds j preferences PremiumSource) as B8.
  simpl points in *.
  assert (Hyes : forall c, satisfied c j preferences = true ->
                           contribution j preferences c = points c)
    by (intros c Hc; unfold contribution; rewrite Hc; reflexivity).
  assert (Hno : forall c, satisfied c j preferences = false ->
                          contribution j preferences c = 0)
    by (intros c Hc; unfold contribution; rewrite Hc; reflexivity).
  split; [|split].
  - split.
    + intros Hsum c. destruct (satisfied c j preferences) eqn:E; [reflexivity|].
      apply Hno in E. destruct c; lia.
    + intros Hall.
      rewrite !Hyes by apply Hall. reflexivity.
  - split.
    + intros Hsum c. destruct (satisfied c j preferences) eqn:E; [|reflexivity].
      apply Hyes in E. destruct c; simpl points in E; lia.
    + intros Hall.
      rewrite !Hno by apply Hall. reflexivity.
  - intros c Hc. apply Hyes in Hc. destruct c; simpl points in *; lia.
Qed.

(** X4. Matching is blind to letter case in the texts it lower-cases: two
    jobs whose titles, descriptions and skills agree up to case, scored
    under preferences whose keyword and skill texts agree up to case (and
    that agree in everything else the scorer reads), get the same score. *)
Theorem computeMatchScore_ignores_case (j j' : Job) (p p' : Preferences) :
  toLowerCase j.(title) = toLowerCase j'.(title) ->
  toLowerCase j.(description) = toLowerCase j'.(description) ->
  map toLowerCase j.(skills) = map toLowerCase j'.(skills) ->
  j.(location) = j'.(location) ->
  j.(mode) = j'.(mode) ->
  j.(experience) = j'.(experience) ->
  j.(postedDaysAgo) = j'.(postedDaysAgo) ->
  j.(source) = j'.(source) ->
  toLowerCase p.(roleKeywords) = toLowerCase p'.(roleKeywords) ->
  toLowerCase p.(prefSkillsText) = toLowerCase p'.(prefSkillsText) ->
  p.(preferredLocations) = p'.(preferredLocations) ->
  p.(preferredModes) = p'.(preferredModes) ->
  p.(experienceLevel) = p'.(experienceLevel) ->
  computeMatchScore j p = computeMatchScore j' p'.
Proof.
  intros Ht Hd Hs Hl Hm He Hp Hsrc Hk Hsk Hpl Hpm Hpe.
  unfold computeMatchScore.
  rewrite (splitCommaSeparated_same_case _ _ Hk),
    (splitCommaSeparated_same_case _ _ Hsk),
    Ht, Hd, Hs, Hl, Hm, He, Hp, Hsrc, Hpl, Hpm, Hpe.
  reflexivity.
Qed.

Lemma existsb_mode_In (mode : JobMode) (l : list JobMode) :
  existsb (fun m => bool_decide (m = mode)) l = true <-> In mode l.
Proof.
  rewrite existsb_exists. split.
  - intros (m & Hin & Hm). apply bool_decide_eq_true in Hm. congruence.
  - intros Hin. exists mode. split; [exact Hin|].
    apply bool_decide_eq_true. reflexivity.
Qed.

Lemma existsb_mode_not_In (mode : JobMode) (l : list JobMode) :
  existsb (fun m => bool_decide (m = mode)) l = false <-> ~ In mode l.
Proof.
  rewrite <- existsb_mode_In.
  destruct (existsb (fun m => bool_decide (m = mode)) l); split; congruence.
Qed.

Lemma In_filter_other_modes (mode m : JobMode) (l : list JobMode) :
  In m (List.filter (fun m' => negb (bool_decide (m' = mode))) l) <->
  In m l /\ m <> mode.
Proof.
  rewrite List.filter_In, negb_true_iff, bool_decide_eq_false. reflexivity.
Qed.

Lemma filter_other_modes_absent (mode : JobMode) (l : list JobMode) :
  ~ In mode l ->
  List.filter (fun m' => negb (bool_decide (m' = mode))) l = l.
Proof.
  induction l as [|m l IH]; intros Hnot; [reflexivity|]. simpl.
  rewrite bool_decide_eq_false_2 by (intros ->; apply Hnot; left; reflexivity).
  simpl. rewrite IH; [reflexivity|]. intros Hin. apply Hnot. right. exact Hin.
Qed.

(** X5. Ticking the mode of a job in the settings raises the job's score
    by the 10 points of the mode criterion, and unticking it takes them
    away again. *)
Theorem toggleMode_score (j : Job) (preferences : Preferences) :
  (~ In j.(mode) preferences.(preferredModes) ->
   computeMatchScore j (toggleMode j.(mode) preferences) =
   computeMatchScore j preferences + 10) /\
  (In j.(mode) preferences.(preferredModes) ->
   computeMatchScore j (toggleMode j.(mode) preferences) =
   computeMatchScore j preferences - 10).
Proof.
  rewrite !computeMatchScore_sum.
  unfold contributions, allCriteria, contribution, satisfied, toggleMode.
  simpl map. simpl fold_right. cbv zeta. split; intros Hmode.
  - rewrite (proj2 (existsb_mode_not_In _ _) Hmode).
    rewrite existsb_app. simpl existsb.
    rewrite bool_decide_eq_true_2 by reflexivity.
    rewrite orb_true_r. simpl points. lia.
  - rewrite (proj2 (existsb_mode_In _ _) Hmode). simpl preferredModes.
    assert (Hoff : existsb (fun m : JobMode => bool_decide (m = mode j))
                     (List.filter (fun m => negb (bool_decide (m = mode j)))
                        (preferredModes preferences)) = false).
    { apply existsb_mode_not_In. rewrite In_filter_other_modes. tauto. }
    rewrite Hoff. simpl points. lia.
Qed.

Lemma NoDup_snoc_modes (mode : JobMode) (l : list JobMode) :
  List.NoDup l -> ~ In mode l -> List.NoDup (l ++ [mode]).
Proof.
  induction l as [|m l IH]; intros Hnd Hnot; simpl.
  - constructor; [intros [] | constructor].
  - inversion Hnd as [|? ? Hm Hl]; subst. constructor.
    + intros Hin. apply in_app_or in Hin as [Hin|[<-|[]]];
        [exact (Hm Hin) | apply Hnot; left; reflexivity].
    + apply IH; [exact Hl|]. intros Hin. apply Hnot. right. exact Hin.
Qed.

(** X6. [toggleMode] flips the membership of the mode and of no other; it
    keeps a duplicate-free selection duplicate-free; and ticking a mode that
    was not selected and unticking it again gives back the preferences as
    they were. *)
Theorem toggleMode_membership (mode : JobMode) (preferences : Preferences) :
  (In mode (toggleMode mode preferences).(preferredModes) <->
   ~ In mode preferences.(preferredModes)) /\
  (forall m, m <> mode ->
     (In m (toggleMode mode preferences).(preferredModes) <->
      In m preferences.(preferredModes))) /\
  (List.NoDup preferences.(preferredModes) ->
   List.NoDup (toggleMode mode preferences).(preferredModes)) /\
  (~ In mode preferences.(preferredModes) ->
   toggleMode mode (toggleMode mode preferences) = preferences).
Proof.
  unfold toggleMode at 1 2 3. cbv zeta.
  destruct (existsb (fun m => bool_decide (m = mode)) (preferredModes preferences))
    eqn:E; simpl preferredModes.
  - apply existsb_mode_In in E. split; [|split; [|split]].
    + rewrite In_filter_other_modes. tauto.
    + intros m Hm. rewrite In_filter_other_modes. tauto.
    + intros Hnd. apply List.NoDup_filter. exact Hnd.
    + intros Hnot. contradiction.
  - apply existsb_mode_not_In in E. split; [|split; [|split]].
    + split; [intros _; exact E|].
      intros _. apply in_or_app. right. left. reflexivity.
    + intros m Hm. split.
      * intros H. apply in_app_or in H as [H|[H|[]]]; [exact H | congruence].
      * intros H. apply in_or_app. left. exact H.
    + intros Hnd. apply NoDup_snoc_modes; assumption.
    + intros _. unfold toggleMode. cbv zeta.
      rewrite (proj2 (existsb_mode_not_In _ _) E). simpl preferredModes.
      rewrite existsb_app. simpl existsb.
      rewrite bool_decide_eq_true_2 by reflexivity. rewrite orb_true_r.
      rewrite List.filter_app. simpl List.filter.
      rewrite bool_decide_eq_true_2 by reflexivity. simpl.
      rewrite app_nil_r, filter_other_modes_absent by exact E.
      destruct preferences; reflexivity.
Qed.

(** ** Salary extraction, further *)

Lemma matchDigits_allDigits (s group : string) :
  matchDigits s = Some group -> allDigits group.
Proof.
  induction s as [|c r IH]; [discriminate|].
  cbn [matchDigits]. destruct (takeDigits (String c r)) as [|d run] eqn:E.
  - exact IH.
  - intros [= <-]. rewrite <- E.
    destruct (takeDigits_decompose (String c r)) as (_ & _ & Hall & _). exact Hall.
Qed.

Lemma decimalValue_nonneg (digits : list ascii) :
  Forall (fun c => isDigit c = true) digits -> 0 <= decimalValue digits.
Proof.
  induction 1 as [|c r Hc Hr IH]; simpl; [lia|].
  pose proof (digit_value_range c Hc).
  assert (0 <= 10 ^ Z.of_nat (length r)) by (apply Z.pow_nonneg; lia). nia.
Qed.

(** X7. The salary value is never negative, whatever the text. *)
Theorem extractSalaryValue_nonneg (salaryText : string) :
  0 <= extractSalaryValue salaryText.
Proof.
  unfold extractSalaryValue.
  destruct (matchDigits salaryText) as [group|] eqn:E; [|lia].
  apply matchDigits_allDigits in E. rewrite parseInt10_decimalValue.
  pose proof (decimalValue_nonneg _ E).
  destruct (includes _ "lpa"); [lia|]. destruct (includes _ "k"); lia.
Qed.

(** ** View engine, further *)

Lemma filter_when {A} (c : bool) (p : A -> bool) (l : list A) :
  (if c then List.filter p l else l) = List.filter (fun x => negb c || p x) l.
Proof.
  destruct c; simpl; [reflexivity|].
  induction l as [|x l IH]; simpl; congruence.
Qed.

Lemma filter_when_some {A B} (o : option B) (p : B -> A -> bool) (l : list A) :
  match o with Some v => List.filter (p v) l | None => l end =
  List.filter (fun x => match o with Some v => p v x | None => true end) l.
Proof.
  destruct o; [reflexivity|].
  induction l as [|x l IH]; simpl; congruence.
Qed.

Lemma filter_twice {A} (p q : A -> bool) (l : list A) :
  List.filter p (List.filter q l) = List.filter (fun x => q x && p x) l.
Proof.
  induction l as [|x l IH]; simpl; [reflexivity|].
  destruct (q x); simpl; [destruct (p x)|]; congruence.
Qed.

(** The view is the catalog filtered by one test, then sorted. *)
Lemma filteredJobs_normal_form (jws : list Scored) (filters : Filters)
    (showOnlyMatches hasPrefs : bool) (preferences : Preferences)
    (jobStatuses : gmap Z JobStatusRecord) :
  filteredJobs jws filters showOnlyMatches hasPrefs preferences jobStatuses =
  arraySort (viewCompare filters)
    (List.filter
       (passesFilters filters showOnlyMatches hasPrefs preferences jobStatuses) jws).
Proof.
  unfold filteredJobs. cbv zeta. f_equal.
  rewrite filter_when.
  rewrite (filter_when_some (f_status filters)
             (fun s x => bool_decide (statusOf jobStatuses (job x) = s))).
  rewrite filter_when.
  rewrite (filter_when_some (f_experience filters)
             (fun e x => bool_decide (experience (job x) = e))).
  rewrite (filter_when_some (f_mode filters)
             (fun m x => bool_decide (mode (job x) = m))).
  rewrite !filter_when, !filter_twice.
  apply List.filter_ext. intros x. unfold passesFilters.
  rewrite !andb_assoc. reflexivity.
Qed.





Section Stability.
Context {A : Type} (compare : A -> A -> Z) (key : A -> Z).
Hypothesis compare_key : forall a b, compare a b = key a - key b.


End Stability.

Lemma sublist_List_filter {A} (p : A -> bool) (l : list A) :
  sublist (List.filter p l) l.
Proof.
  induction l as [|x l IH]; simpl; [constructor|].
  destruct (p x); [apply sublist_skip | apply sublist_cons]; exact IH.
Qed.


Lemma filter_all {A} (p : A -> bool) (l : list A) :
  (forall x, In x l -> p x = true) -> List.filter p l = l.
Proof.
  induction l as [|x l IH]; intros H; [reflexivity|]. simpl.
  rewrite (H x) by (left; reflexivity). f_equal. apply IH.
  intros y Hy. apply H. right. exact Hy.
Qed.

Lemma NoDup_map_filter {A B} (f : A -> B) (p : A -> bool) (l : list A) :
  List.NoDup (map f l) -> List.NoDup (map f (List.filter p l)).
Proof.
  induction l as [|x l IH]; intros Hnd; [constructor|].
  simpl in Hnd. inversion Hnd as [|? ? Hx Hl]; subst. simpl.
  destruct (p x); [|apply IH; exact Hl]. simpl. constructor; [|apply IH; exact Hl].
  intros Hin. apply Hx. apply in_map_iff in Hin as (y & Hy & Hin).
  apply List.filter_In in Hin as [Hin _]. apply in_map_iff. eauto.
Qed.

Lemma jobsWithScores_jobs (jobs : list Job) (preferences : Preferences) :
  map job (jobsWithScores jobs preferences) = jobs.
Proof.
  unfold jobsWithScores. rewrite map_map. simpl. apply map_id.
Qed.

Lemma In_jobsWithScores (jobs : list Job) (preferences : Preferences) (x : Scored) :
  In x (jobsWithScores jobs preferences) <->
  In x.(job) jobs /\ x.(score) = computeMatchScore x.(job) preferences.
Proof.
  unfold jobsWithScores. rewrite in_map_iff. split.
  - intros (j & <- & Hj). simpl. auto.
  - intros [Hin Hscore]. exists (job x). split; [|exact Hin].
    destruct x as [xj xs]. simpl in *. congruence.
Qed.

(** X10. The view never invents anything.  Each entry is a job of the
    catalog with the score the scorer gives it; the view is never longer
    than the catalog; distinct job ids in the catalog stay distinct in the
    view; and with no filter set and the toggle off the view is a
    rearrangement of the whole catalog: no job is dropped. *)
Theorem filteredJobs_provenance (jobs : list Job) (preferences : Preferences)
    (filters : Filters) (showOnlyMatches hasPrefs : bool)
    (jobStatuses : gmap Z JobStatusRecord) :
  let result :=
    filteredJobs (jobsWithScores jobs preferences) filters showOnlyMatches
      hasPrefs preferences jobStatuses in
  (forall x, In x result ->
     In x.(job) jobs /\ x.(score) = computeMatchScore x.(job) preferences) /\
  (length result <= length jobs)%nat /\
  (List.NoDup (map id jobs) ->
   List.NoDup (map (fun x => x.(job).(id)) result)) /\
  (forall key,
     Permutation
       (map job
          (filteredJobs (jobsWithScores jobs preferences)
             {| keyword := ""; f_location := ""; f_mode := None;
                f_experience := None; f_source := ""; sort := key;
                f_status := None |}
             false hasPrefs preferences jobStatuses))
       jobs).
Proof.
  intros result. subst result. rewrite filteredJobs_normal_form.
  split; [|split; [|split]].
  - intros x Hx. apply In_arraySort, List.filter_In in Hx as [Hx _].
    apply In_jobsWithScores. exact Hx.
  - rewrite arraySort_length.
    etransitivity; [apply List.filter_length_le|].
    unfold jobsWithScores. rewrite length_map. reflexivity.
  - intros Hnd.
    eapply Permutation_NoDup.
    + symmetry. apply Permutation_map. apply arraySort_perm.
    + apply NoDup_map_filter.
      rewrite <- (jobsWithScores_jobs jobs preferences), map_map in Hnd.
      exact Hnd.
  - intros key. rewrite filteredJobs_normal_form.
    rewrite filter_all by (intros x _; reflexivity).
    rewrite (Permutation_map job (arraySort_perm _ _)).
    rewrite jobsWithScores_jobs. reflexivity.
Qed.

Lemma computeMatchScore_nonneg (j : Job) (preferences : Preferences) :
  0 <= computeMatchScore j preferences.
Proof.
  rewrite computeMatchScore_sum. apply contributions_bounds.
Qed.

Lemma passesFilters_true (filters : Filters) (showOnlyMatches hasPrefs : bool)
    (preferences : Preferences) (jobStatuses : gmap Z JobStatusRecord) (x : Scored) :
  passesFilters filters showOnlyMatches hasPrefs preferences jobStatuses x = true <->
  passesFilters filters false hasPrefs preferences jobStatuses x = true /\
  (showOnlyMatches && hasPrefs = true -> preferences.(minMatchScore) <= x.(score)).
Proof.
  unfold passesFilters. rewrite !andb_true_iff.
  destruct showOnlyMatches, hasPrefs; simpl; rewrite ?Z.leb_le;
    intuition (auto; try discriminate).
Qed.

(** X11. The threshold only ever removes jobs.  With the "only above
    threshold" filter in effect, a job shown under a higher threshold is
    also shown under any lower one; and a threshold of 0 or less removes
    nothing, because no score is negative: the view is then the same list as
    with the toggle off. *)
Theorem threshold_monotone (jobs : list Job) (preferences : Preferences)
    (filters : Filters) (showOnlyMatches hasPrefs : bool)
    (jobStatuses : gmap Z JobStatusRecord) :
  (forall m m' x,
     m <= m' ->
     In x (filteredJobs (jobsWithScores jobs (setMinMatchScore m' preferences))
             filters showOnlyMatches hasPrefs
             (setMinMatchScore m' preferences) jobStatuses) ->
     In x (filteredJobs (jobsWithScores jobs (setMinMatchScore m preferences))
             filters showOnlyMatches hasPrefs
             (setMinMatchScore m preferences) jobStatuses)) /\
  (preferences.(minMatchScore) <= 0 ->
   filteredJobs (jobsWithScores jobs preferences) filters showOnlyMatches
     hasPrefs preferences jobStatuses =
   filteredJobs (jobsWithScores jobs preferences) filters false
     hasPrefs preferences jobStatuses).
Proof.
  split.
  - intros m m' x Hle. rewrite !filteredJobs_normal_form, !In_arraySort,
      !List.filter_In.
    change (jobsWithScores jobs (setMinMatchScore m' preferences))
      with (jobsWithScores jobs preferences).
    change (jobsWithScores jobs (setMinMatchScore m preferences))
      with (jobsWithScores jobs preferences).
    intros [Hin Hpass]. split; [exact Hin|].
    apply passesFilters_true in Hpass as [Hoff Hthr].
    apply passesFilters_true. split; [exact Hoff|].
    intros Hon. specialize (Hthr Hon). simpl in *. lia.
  - intros Hzero. rewrite !filteredJobs_normal_form. f_equal.
    apply List.filter_ext_in. intros x Hx.
    apply In_jobsWithScores in Hx as [_ Hscore].
    pose proof (computeMatchScore_nonneg (job x) preferences) as Hnn.
    destruct (passesFilters filters false hasPrefs preferences jobStatuses x) eqn:Eoff.
    + apply passesFilters_true. split; [exact Eoff|]. intros _. lia.
    + destruct (passesFilters filters showOnlyMatches hasPrefs preferences
                  jobStatuses x) eqn:Eon; [|reflexivity].
      apply passesFilters_true in Eon as [Eon _]. congruence.
Qed.

(** X12. The four status views partition the catalog.  With only the
    status filter set, a job of the scored catalog is in the view for a
    status exactly when that is the status of its record in the status
    store, or "Not Applied" when the store has no record under its id; so
    it is in the view of one status and of no other. *)
Theorem status_views_partition (jws : list Scored) (hasPrefs : bool)
    (preferences : Preferences) (jobStatuses : gmap Z JobStatusRecord)
    (x : Scored) :
  In x jws ->
  (forall s,
     In x (filteredJobs jws (updateStatus (Some s) noFilters) false hasPrefs
             preferences jobStatuses) <->
     match jobStatuses !! x.(job).(id) with
     | Some statusRecord => statusRecord.(status) = s
     | None => s = NotApplied
     end) /\
  (exists s,
     In x (filteredJobs jws (updateStatus (Some s) noFilters) false hasPrefs
             preferences jobStatuses) /\
     forall s',
       In x (filteredJobs jws (updateStatus (Some s') noFilters) false hasPrefs
               preferences jobStatuses) -> s' = s).
Proof.
  intros Hin.
  assert (Hview : forall s,
     In x (filteredJobs jws (updateStatus (Some s) noFilters) false hasPrefs
             preferences jobStatuses) <->
     match jobStatuses !! x.(job).(id) with
     | Some statusRecord => statusRecord.(status) = s
     | None => s = NotApplied
     end).
  { intros s. rewrite In_filteredJobs. split.
    - intros [_ Hall]. specialize (Hall ByStatus). simpl in Hall.
      assert (Hset : Some s <> None) by discriminate. specialize (Hall Hset).
      destruct (jobStatuses !! id (job x)); congruence.
    - intros Hs. split; [exact Hin|]. intros k Hset.
      destruct k; simpl in *; try unset_filter Hset.
      destruct (jobStatuses !! id (job x)); congruence. }
  split; [exact Hview|].
  destruct (jobStatuses !! id (job x)) as [statusRecord|] eqn:E.
  - exists (status statusRecord). split.
    + apply Hview. rewrite ?E. reflexivity.
    + intros s' Hs'. apply Hview in Hs'. rewrite ?E in Hs'. congruence.
  - exists NotApplied. split.
    + apply Hview. rewrite ?E. reflexivity.
    + intros s' Hs'. apply Hview in Hs'. rewrite ?E in Hs'. exact Hs'.
Qed.

(** X13. Changing the status of a job is an insert into the status map:
    afterwards the job reports the new status and every other job reports
    what it did before.  "Not Applied" can be stored explicitly, and a job
    for which it is stored reports the same as a job without a record. *)
Theorem handleChangeStatus_lookup (jobId : Z) (newStatus : JobStatus) (now : string)
    (prev : gmap Z JobStatusRecord) (storage : gmap string Stored) (j : Job) :
  let next := (handleChangeStatus jobId newStatus now prev storage).1 in
  (j.(id) = jobId -> statusOf next j = newStatus) /\
  (j.(id) <> jobId -> statusOf next j = statusOf prev j) /\
  (newStatus = NotApplied -> statusOf next j = statusOf (delete jobId prev) j) /\
  next !! jobId = Some {| status := newStatus; updatedAt := now |}.
Proof.
  intros next. subst next. unfold handleChangeStatus, statusOf. simpl.
  split; [|split; [|split]].
  - intros ->. rewrite lookup_insert_eq. reflexivity.
  - intros Hne. rewrite lookup_insert_ne by congruence. reflexivity.
  - intros ->. destruct (decide (id j = jobId)) as [->|Hne].
    + rewrite lookup_insert_eq, lookup_delete_eq. reflexivity.
    + rewrite lookup_insert_ne, lookup_delete_ne by congruence. reflexivity.
  - apply lookup_insert_eq.
Qed.

(** ** Select options *)

Lemma In_newSet (x : string) (values : list string) :
  In x (newSet values) <-> In x values.
Proof.
  induction values as [|v rest IH]; simpl; [reflexivity|].
  rewrite List.filter_In, IH, negb_true_iff, String.eqb_neq.
  destruct (String.eqb_spec v x) as [->|Hne]; [tauto|]. split.
  - intros [H|[H _]]; auto.
  - intros [H|H]; [congruence|]. right. split; [exact H | congruence].
Qed.

Lemma NoDup_newSet (values : list string) : List.NoDup (newSet values).
Proof.
  induction values as [|v rest IH]; simpl; constructor.
  - rewrite List.filter_In, negb_true_iff, String.eqb_neq. intros [_ H]. congruence.
  - apply List.NoDup_filter. exact IH.
Qed.

Lemma defaultCompare_le (a b : string) :
  defaultCompare a b <= 0 -> String.leb a b = true.
Proof.
  unfold defaultCompare, String.leb.
  destruct (String.compare a b); simpl; intros; first [reflexivity | lia].
Qed.

Lemma defaultCompare_gt (a b : string) :
  0 < defaultCompare a b -> String.leb b a = true.
Proof.
  unfold defaultCompare, String.leb. rewrite (String.compare_antisym b a).
  destruct (String.compare a b); simpl; intros; first [reflexivity | lia].
Qed.

Lemma leb_trans (a b c : string) :
  String.leb a b = true -> String.leb b c = true -> String.leb a c = true.
Proof.
  intros Hab Hbc. apply Is_true_true. apply Is_true_true in Hab, Hbc.
  change (String.le a c). transitivity b; assumption.
Qed.

Lemma sortedDistinct_sorted (values : list string) :
  StronglySorted (fun a b => String.leb a b = true) (sortedDistinct values).
Proof.
  apply arraySort_sorted;
    [apply defaultCompare_le | apply defaultCompare_gt | apply leb_trans].
Qed.

Lemma sorted_distinct_strict (l : list string) :
  List.NoDup l -> StronglySorted (fun a b => String.leb a b = true) l ->
  StronglySorted (fun a b => String.compare a b = Lt) l.
Proof.
  intros Hnd Hs. induction Hs as [|x l Hl IH Hx]; [constructor|].
  inversion Hnd as [|? ? Hnotin Hndl]; subst. constructor; [auto|].
  rewrite List.Forall_forall in *. intros y Hy. specialize (Hx y Hy).
  unfold String.leb in Hx. destruct (String.compare x y) eqn:E;
    [|reflexivity|discriminate].
  apply String.compare_eq_iff in E. subst y. contradiction.
Qed.

(** X14. The location options of the dashboard are exactly the locations
    that occur in the catalog, each once, in strictly ascending order; and
    choosing any of them as the only filter never gives an empty view. *)
Theorem locations_options (jobs : list Job) :
  (forall loc, In loc (locations jobs) <-> exists j, In j jobs /\ j.(location) = loc) /\
  List.NoDup (locations jobs) /\
  StronglySorted (fun a b => String.compare a b = Lt) (locations jobs) /\
  (forall loc preferences hasPrefs jobStatuses key,
     In loc (locations jobs) ->
     filteredJobs (jobsWithScores jobs preferences)
       {| keyword := ""; f_location := loc; f_mode := None; f_experience := None;
          f_source := ""; sort := key; f_status := None |}
       false hasPrefs preferences jobStatuses <> []).
Proof.
  assert (Hin : forall loc, In loc (locations jobs) <->
                            exists j, In j jobs /\ j.(location) = loc).
  { intros loc. unfold locations, sortedDistinct.
    rewrite In_arraySort, In_newSet, in_map_iff. split; intros (j & H1 & H2); eauto. }
  assert (Hnd : List.NoDup (locations jobs)).
  { unfold locations, sortedDistinct.
    eapply Permutation_NoDup; [symmetry; apply arraySort_perm | apply NoDup_newSet]. }
  split; [exact Hin|]. split; [exact Hnd|]. split.
  - apply sorted_distinct_strict; [exact Hnd | apply sortedDistinct_sorted].
  - intros loc preferences hasPrefs jobStatuses key Hloc.
    apply Hin in Hloc as (j & Hj & <-).
    assert (Hx : In {| job := j; score := computeMatchScore j preferences |}
                   (filteredJobs (jobsWithScores jobs preferences)
                      {| keyword := ""; f_location := location j; f_mode := None;
                         f_experience := None; f_source := ""; sort := key;
                         f_status := None |}
                      false hasPrefs preferences jobStatuses)).
    { apply In_filteredJobs. split.
      - apply In_jobsWithScores. simpl. auto.
      - intros k Hset. destruct k; simpl in *;
          first [unset_filter Hset | reflexivity]. }
    intros Hempty. rewrite Hempty in Hx. destruct Hx.
Qed.

(** ** Saved page *)

Lemma In_savedJobs (JOBS : list Job) (savedJobIds : list Z) (j : Job) :
  In j (savedJobs JOBS savedJobIds) <-> In j JOBS /\ In j.(id) savedJobIds.
Proof.
  unfold savedJobs. rewrite List.filter_In, existsb_Zeqb_In. reflexivity.
Qed.

(** X15. The saved page shows exactly the catalog jobs whose id is in the
    saved list, in catalog order, whatever the order in which they were
    saved; saved ids that name no catalog job are passed over; and when the
    catalog ids are distinct there are at most as many jobs on the page as
    distinct saved ids. *)
Theorem savedJobs_spec (JOBS : list Job) (savedJobIds : list Z) :
  (forall j, In j (savedJobs JOBS savedJobIds) <->
             In j JOBS /\ In j.(id) savedJobIds) /\
  sublist (savedJobs JOBS savedJobIds) JOBS /\
  (List.NoDup (map id JOBS) ->
   (length (savedJobs JOBS savedJobIds) <= length savedJobIds)%nat).
Proof.
  split; [apply In_savedJobs|]. split; [apply sublist_List_filter|].
  intros Hnd. rewrite <- (length_map id (savedJobs JOBS savedJobIds)).
  apply List.NoDup_incl_length.
  - apply NoDup_map_filter. exact Hnd.
  - intros x Hx. apply in_map_iff in Hx as (j & <- & Hj).
    apply In_savedJobs in Hj. tauto.
Qed.

(** X16. Saving a catalog job puts it on the saved page and takes nothing
    off it: the page after the save holds the page before it plus the jobs
    with the saved id. *)
Theorem handleSaveJob_savedJobs (JOBS : list Job) (prev : list Z)
    (storage : gmap string Stored) (j : Job) :
  In j JOBS ->
  let next := (handleSaveJob j.(id) prev storage).1 in
  In j (savedJobs JOBS next) /\
  (forall j', In j' (savedJobs JOBS next) <->
              In j' (savedJobs JOBS prev) \/ (In j' JOBS /\ j'.(id) = j.(id))).
Proof.
  intros Hj next.
  assert (Hnext : forall x, In x next <-> In x prev \/ x = j.(id)).
  { intros x. subst next. destruct (in_dec Z.eq_dec (id j) prev) as [Hin|Hnot].
    - rewrite handleSaveJob_present by assumption. simpl.
      split; [auto | intros [H| ->]; assumption].
    - rewrite handleSaveJob_new by assumption. simpl.
      rewrite in_app_iff. simpl. split; intros [H|H]; auto.
      destruct H as [H|[]]; auto. }
  split.
  - apply In_savedJobs. split; [exact Hj|]. apply Hnext. auto.
  - intros j'. rewrite !In_savedJobs, Hnext. tauto.
Qed.

(** ** Saved set, further *)

Lemma savedStep_synced (s : list Z * gmap string Stored) (e : SavedEvent) :
  loadSavedJobs [] s.2 = s.1 ->
  loadSavedJobs [] (savedStep s e).2 = (savedStep s e).1 /\
  exists added, (savedStep s e).1 = s.1 ++ added.
Proof.
  destruct s as [saved storage]. simpl. intros Hsync. destruct e as [|id]; simpl.
  - assert (Hload : loadSavedJobs saved storage = saved).
    { unfold loadSavedJobs in *.
      destruct (storage !! savedJobsKey) as [[]|]; congruence. }
    rewrite Hload. split; [exact Hsync|]. exists []. rewrite app_nil_r. reflexivity.
  - destruct (in_dec Z.eq_dec id saved) as [Hin|Hnot].
    + rewrite handleSaveJob_present by assumption. simpl.
      split; [exact Hsync|]. exists []. rewrite app_nil_r. reflexivity.
    + rewrite handleSaveJob_new by assumption. simpl. split; [|eauto].
      unfold loadSavedJobs. rewrite lookup_insert_eq. reflexivity.
Qed.

Lemma savedRun_synced (events : list SavedEvent) (s : list Z * gmap string Stored) :
  loadSavedJobs [] s.2 = s.1 ->
  loadSavedJobs [] (savedRun events s).2 = (savedRun events s).1 /\
  exists added, (savedRun events s).1 = s.1 ++ added.
Proof.
  unfold savedRun. revert s.
  induction events as [|e events IH]; intros s Hsync; simpl.
  - split; [exact Hsync|]. exists []. rewrite app_nil_r. reflexivity.
  - destruct (savedStep_synced s e Hsync) as [Hsync' [added1 Hadd1]].
    destruct (IH _ Hsync') as [Hfinal [added2 Hadd2]].
    split; [exact Hfinal|]. exists (added1 ++ added2).
    rewrite Hadd2, Hadd1, app_assoc. reflexivity.
Qed.

(** X17. The saved list survives a reload and only grows.  Starting from a
    list that is what the store gives back, after any sequence of saves and
    mount effects a fresh mount (empty list, then the mount effect) gives
    back the current list, and the current list is the starting one with
    ids appended. *)
Theorem savedJobIds_survive_reload (saved : list Z) (storage : gmap string Stored)
    (events : list SavedEvent) :
  loadSavedJobs [] storage = saved ->
  loadSavedJobs [] (savedRun events (saved, storage)).2 =
    (savedRun events (saved, storage)).1 /\
  exists added, (savedRun events (saved, storage)).1 = saved ++ added.
Proof.
  intros Hsync. apply (savedRun_synced events (saved, storage)). exact Hsync.
Qed.

(** ** Digest generator, further *)

Section DigestFurther.
Variable JOBS : list Job.
Variables digestKey dateStr : string.

(** What a call that returns leaves behind, the preferences being
    non-empty: a snapshot under the key, and that snapshot on the page. *)
Lemma generateDigest_returned preferences st storage st1 storage1 :
  generateDigest JOBS digestKey dateStr preferences true st storage =
    Returned (st1, storage1) ->
  exists snapshot,
    storedSnapshot digestKey storage1 = Some snapshot /\
    st1 = {| digest := Some {| date := dateStr; items := snapshot |};
             isGenerating := false;
             noMatchesToday := lengthZ snapshot =? 0 |}.
Proof.
  intros Hcall.
  destruct (storedSnapshot digestKey storage) as [snapshot|] eqn:Hsnap.
  - rewrite (generateDigest_cached _ _ _ _ _ _ _ Hsnap) in Hcall.
    injection Hcall as <- <-. eauto.
  - assert (Habsent : snapshotAbsent digestKey storage).
    { unfold snapshotAbsent. unfold storedSnapshot in Hsnap.
      unfold generateDigest, generateDigestBody in Hcall.
      destruct (storage !! digestKey) as [[]|]; try exact I;
        simpl in Hcall; congruence. }
    rewrite (generateDigest_fresh_result _ _ _ _ _ _ Habsent) in Hcall.
    injection Hcall as <- <-. eexists. split; [|reflexivity].
    unfold storedSnapshot. rewrite lookup_insert_eq. reflexivity.
Qed.

(** X18. A text that is not JSON under the day's key makes generation
    throw when the preferences are non-empty: the exception of [JSON.parse]
    leaves [generateDigest], whose [try] has a [finally] but no [catch].  The
    store and the digest on the page are then as they were and the
    "generating" flag is reset.  The mount effect, by contrast, ignores such
    a text and leaves the page as it is. *)
Theorem generateDigest_throws (preferences : Preferences)
    (st : DigestPage) (storage : gmap string Stored) :
  storage !! digestKey = Some Unparsable ->
  generateDigest JOBS digestKey dateStr preferences true st storage =
    Thrown ({| digest := st.(digest); isGenerating := false;
               noMatchesToday := st.(noMatchesToday) |}, storage) /\
  loadDigest digestKey dateStr st storage = st.
Proof.
  intros Hbad. unfold generateDigest, generateDigestBody, loadDigest.
  rewrite Hbad. simpl. auto.
Qed.

(** X19. What a returned generation shows is what a reload shows: a page
    mounted afresh on the store the call left behind comes, by its mount
    effect, to the very state the call left the page in. *)
Theorem generateDigest_then_reload (preferences : Preferences)
    (st : DigestPage) (storage : gmap string Stored)
    (st1 : DigestPage) (storage1 : gmap string Stored) :
  generateDigest JOBS digestKey dateStr preferences true st storage =
    Returned (st1, storage1) ->
  loadDigest digestKey dateStr initialDigestPage storage1 = st1.
Proof.
  intros Hcall. apply generateDigest_returned in Hcall as (snapshot & Hsnap & ->).
  unfold loadDigest. unfold storedSnapshot in Hsnap.
  destruct (storage1 !! digestKey) as [[]|]; try discriminate.
  injection Hsnap as ->. reflexivity.
Qed.
End DigestFurther.

Lemma StronglySorted_app_inv {A} (R : A -> A -> Prop) (l1 l2 : list A) :
  StronglySorted R (l1 ++ l2) ->
  forall a b, In a l1 -> In b l2 -> R a b.
Proof.
  induction l1 as [|x l1 IH]; intros Hs a b Ha Hb; [destruct Ha|].
  simpl in Hs. inversion Hs as [|? ? Hl Hx]; subst.
  destruct Ha as [<-|Ha].
  - rewrite List.Forall_forall in Hx. apply Hx. apply in_or_app. right. exact Hb.
  - apply IH; assumption.
Qed.

Lemma In_take {A} (n : nat) (l : list A) (x : A) : In x (take n l) -> In x l.
Proof.
  revert n. induction l as [|y l IH]; intros [|n]; simpl; try tauto.
  intros [H|H]; [left; exact H | right; exact (IH n H)].
Qed.

Lemma StronglySorted_take {A} (R : A -> A -> Prop) (n : nat) (l : list A) :
  StronglySorted R l -> StronglySorted R (take n l).
Proof.
  intros Hs. revert n. induction Hs as [|x l Hl IH Hx]; intros [|n]; simpl;
    try constructor; [apply IH|].
  rewrite List.Forall_forall in *. intros y Hy. apply Hx.
  exact (In_take n l y Hy).
Qed.

Lemma StronglySorted_map {A B} (R : A -> A -> Prop) (R' : B -> B -> Prop)
    (f : A -> B) (l : list A) :
  (forall a b, R a b -> R' (f a) (f b)) ->
  StronglySorted R l -> StronglySorted R' (map f l).
Proof.
  intros Hf. induction 1 as [|x l Hl IH Hx]; simpl; constructor; [exact IH|].
  rewrite List.Forall_forall in *. intros y Hy.
  apply in_map_iff in Hy as (a & <- & Ha). apply Hf, Hx, Ha.
Qed.

Section DigestRanking.
Variable JOBS : list Job.
Variables digestKey dateStr : string.
Variable preferences : Preferences.

(** The snapshot a first generation of the day stores. *)
Lemma fresh_snapshot st storage :
  snapshotAbsent digestKey storage ->
  storedSnapshot digestKey
    (outcome (generateDigest JOBS digestKey dateStr preferences true st storage)).2 =
  Some (map toDigestItem
          (take 10 (arraySort digestCompare
             (List.filter (fun x => 0 <? x.(score))
                (jobsWithScores JOBS preferences))))).
Proof.
  intros Habsent. rewrite (generateDigest_fresh_result _ _ _ _ _ _ Habsent).
  simpl. unfold storedSnapshot. rewrite lookup_insert_eq. reflexivity.
Qed.

Lemma In_ranked (x : Scored) :
  In x (arraySort digestCompare
          (List.filter (fun x => 0 <? x.(score)) (jobsWithScores JOBS preferences))) <->
  In x.(job) JOBS /\ x.(score) = computeMatchScore x.(job) preferences /\
  0 < x.(score).
Proof.
  rewrite In_arraySort, List.filter_In, In_jobsWithScores, Z.ltb_lt. tauto.
Qed.

(** X20. Every item of a freshly generated snapshot names a job of the
    catalog and carries the score the scorer gave it under the preferences
    of that moment, a score between 1 and 100; the items are in descending
    order of score; and distinct catalog ids give distinct item ids. *)
Theorem fresh_snapshot_items (st : DigestPage) (storage : gmap string Stored) :
  snapshotAbsent digestKey storage ->
  exists snapshot,
    storedSnapshot digestKey
      (outcome (generateDigest JOBS digestKey dateStr preferences true st storage)).2
      = Some snapshot /\
    (forall item, In item snapshot ->
       exists j, In j JOBS /\ item.(jobId) = j.(id) /\
                 item.(itemScore) = computeMatchScore j preferences /\
                 1 <= item.(itemScore) <= 100) /\
    StronglySorted (fun a b => b.(itemScore) <= a.(itemScore)) snapshot /\
    (List.NoDup (map id JOBS) -> List.NoDup (map jobId snapshot)).
Proof.
  intros Habsent. eexists. split; [apply fresh_snapshot, Habsent|].
  split; [|split].
  - intros item Hitem. apply in_map_iff in Hitem as (x & <- & Hx).
    apply In_take, In_ranked in Hx as (Hj & Hscore & Hpos).
    exists (job x). simpl. repeat split; try assumption; try lia.
    rewrite Hscore. pose proof (contributions_bounds (job x) preferences).
    rewrite computeMatchScore_sum. lia.
  - apply (StronglySorted_map digestBefore).
    + intros a b. unfold digestBefore. simpl. lia.
    + apply StronglySorted_take, digest_ranking_sorted.
  - intros Hnd. rewrite map_map. simpl.
    assert (Hranked : List.NoDup
              (map (fun x => id (job x))
                 (arraySort digestCompare
                    (List.filter (fun x => 0 <? score x)
                       (jobsWithScores JOBS preferences))))).
    { eapply Permutation_NoDup.
      - symmetry. apply Permutation_map, arraySort_perm.
      - apply NoDup_map_filter.
        rewrite <- (jobsWithScores_jobs JOBS preferences), map_map in Hnd.
        exact Hnd. }
    revert Hranked. generalize (arraySort digestCompare
                    (List.filter (fun x => 0 <? score x)
                       (jobsWithScores JOBS preferences))).
    intros l Hl. rewrite <- (take_drop 10 l), map_app in Hl.
    apply List.NoDup_app_remove_r in Hl. exact Hl.
Qed.

(** X21. The snapshot is a true top ten.  Every job with a positive score
    is either in the freshly generated snapshot or left out of a full
    snapshot of ten items none of which scores less than it; so when at most
    ten jobs qualify, all of them are in. *)
Theorem fresh_snapshot_top_ten (st : DigestPage) (storage : gmap string Stored) :
  snapshotAbsent digestKey storage ->
  exists snapshot,
    storedSnapshot digestKey
      (outcome (generateDigest JOBS digestKey dateStr preferences true st storage)).2
      = Some snapshot /\
    forall j, In j JOBS -> 0 < computeMatchScore j preferences ->
      In {| jobId := j.(id); itemScore := computeMatchScore j preferences |} snapshot \/
      (length snapshot = 10%nat /\
       forall item, In item snapshot ->
                    computeMatchScore j preferences <= item.(itemScore)).
Proof.
  intros Habsent. eexists. split; [apply fresh_snapshot, Habsent|].
  intros j Hj Hpos.
  set (ranked := arraySort digestCompare
                   (List.filter (fun x => 0 <? x.(score))
                      (jobsWithScores JOBS preferences))).
  set (x := {| job := j; score := computeMatchScore j preferences |}).
  assert (Hx : In x ranked) by (apply In_ranked; simpl; auto).
  rewrite <- (take_drop 10 ranked) in Hx. apply in_app_or in Hx as [Hx|Hx].
  - left. change (In (toDigestItem x) (map toDigestItem (take 10 ranked))).
    apply in_map. exact Hx.
  - right. split.
    + rewrite length_map, length_take.
      assert (length (drop 10 ranked) <> 0)%nat
        by (destruct (drop 10 ranked); [destruct Hx | discriminate]).
      rewrite length_drop in H. lia.
    + intros item Hitem. apply in_map_iff in Hitem as (a & <- & Ha).
      pose proof (digest_ranking_sorted
                    (List.filter (fun x => 0 <? x.(score))
                       (jobsWithScores JOBS preferences))) as Hsorted.
      fold ranked in Hsorted. rewrite <- (take_drop 10 ranked) in Hsorted.
      pose proof (StronglySorted_app_inv _ _ _ Hsorted a x Ha Hx) as Hbefore.
      unfold digestBefore in Hbefore. simpl in *. lia.
Qed.
End DigestRanking.

(** ** The digest shown: [digestJobs] *)

Lemma byId_from (jobs : list Job) (m : gmap Z Job) (k : Z) :
  ~ In k (map id jobs) ->
  fold_left (fun m job => <[job.(id) := job]> m) jobs m !! k = m !! k.
Proof.
  revert m. induction jobs as [|x l IH]; intros m Hnot; [reflexivity|].
  simpl in *. rewrite IH by tauto. apply lookup_insert_ne. tauto.
Qed.

Lemma byId_found (jobs : list Job) (m : gmap Z Job) (k : Z) :
  In k (map id jobs) ->
  exists j, fold_left (fun m job => <[job.(id) := job]> m) jobs m !! k = Some j /\
            In j jobs /\ j.(id) = k.
Proof.
  revert m. induction jobs as [|x l IH]; intros m Hin; [destruct Hin|].
  simpl. destruct (in_dec Z.eq_dec k (map id l)) as [Hl|Hl].
  - destruct (IH (<[id x := x]> m) Hl) as (j & Hj & Hjl & Hk). eauto.
  - destruct Hin as [Hx|Hin]; [|contradiction].
    exists x. rewrite byId_from by assumption. subst k.
    rewrite lookup_insert_eq. auto.
Qed.

Lemma byId_lookup (jobs : list Job) (k : Z) :
  match byId jobs !! k with
  | Some j => In j jobs /\ j.(id) = k
  | None => ~ In k (map id jobs)
  end.
Proof.
  unfold byId. destruct (in_dec Z.eq_dec k (map id jobs)) as [Hin|Hnot].
  - destruct (byId_found jobs ∅ k Hin) as (j & -> & Hj & Hk). auto.
  - rewrite byId_from by assumption. rewrite lookup_empty. exact Hnot.
Qed.

Lemma NoDup_ids_inj (jobs : list Job) (a b : Job) :
  List.NoDup (map id jobs) -> In a jobs -> In b jobs -> a.(id) = b.(id) -> a = b.
Proof.
  induction jobs as [|x l IH]; intros Hnd Ha Hb Hid; [destruct Ha|].
  simpl in Hnd. inversion Hnd as [|? ? Hx Hl]; subst.
  destruct Ha as [<-|Ha], Hb as [<-|Hb]; auto.
  - exfalso. apply Hx. rewrite Hid. apply in_map. exact Hb.
  - exfalso. apply Hx. rewrite <- Hid. apply in_map. exact Ha.
Qed.

Lemma digestJobs_items (JOBS : list Job) (d : DigestState) :
  map toDigestItem (digestJobs JOBS (Some d)) =
    List.filter (fun item => existsb (Z.eqb item.(jobId)) (map id JOBS)) d.(items).
Proof.
  unfold digestJobs. induction (items d) as [|item l IH]; [reflexivity|].
  cbn [omap list_omap List.filter].
  pose proof (byId_lookup JOBS (jobId item)) as Hk.
  destruct (byId JOBS !! jobId item) as [j|].
  - destruct Hk as [Hj Hid].
    rewrite (proj2 (existsb_Zeqb_In _ _)) by (rewrite <- Hid; apply in_map, Hj).
    cbn [map]. rewrite <- IH. f_equal.
    unfold toDigestItem. simpl. rewrite Hid. destruct item; reflexivity.
  - destruct (existsb (Z.eqb (jobId item)) (map id JOBS)) eqn:E; [|exact IH].
    apply existsb_Zeqb_In in E. contradiction.
Qed.

Lemma digestJobs_in_catalog (JOBS : list Job) (d : DigestState) (x : Scored) :
  In x (digestJobs JOBS (Some d)) -> In x.(job) JOBS.
Proof.
  unfold digestJobs. induction (items d) as [|item l IH]; [intros []|].
  cbn [omap list_omap].
  pose proof (byId_lookup JOBS (jobId item)) as Hk.
  destruct (byId JOBS !! jobId item) as [j|]; [|exact IH].
  intros [<-|Hx]; [simpl; tauto | exact (IH Hx)].
Qed.

(** X22. The digest shown is a projection of the stored snapshot: it
    keeps, in order, exactly the items whose job id occurs in the catalog,
    pairs each with a catalog job of that id and shows the stored score;
    items with an unknown id are dropped without notice, and no score is
    computed anew. *)
Theorem digestJobs_projection (JOBS : list Job) (d : DigestState) :
  map toDigestItem (digestJobs JOBS (Some d)) =
    List.filter (fun item => existsb (Z.eqb item.(jobId)) (map id JOBS)) d.(items) /\
  (forall x, In x (digestJobs JOBS (Some d)) -> In x.(job) JOBS) /\
  digestJobs JOBS None = [].
Proof.
  split; [apply digestJobs_items|]. split; [apply digestJobs_in_catalog|].
  reflexivity.
Qed.

(** X23. When the catalog ids are distinct, the digest shown after a first
    generation of the day is the stored snapshot item for item, none
    dropped, and each job is shown with the score the scorer gives that very
    job. *)
Theorem digestJobs_after_generation (JOBS : list Job) (digestKey dateStr : string)
    (preferences : Preferences) (st : DigestPage) (storage : gmap string Stored) :
  List.NoDup (map id JOBS) ->
  snapshotAbsent digestKey storage ->
  let after :=
    outcome (generateDigest JOBS digestKey dateStr preferences true st storage) in
  Some (map toDigestItem (digestJobs JOBS after.1.(digest))) =
    storedSnapshot digestKey after.2 /\
  (forall x, In x (digestJobs JOBS after.1.(digest)) ->
             In x.(job) JOBS /\
             x.(score) = computeMatchScore x.(job) preferences).
Proof.
  intros Hnd Habsent after. subst after.
  rewrite (fresh_snapshot _ _ _ _ _ _ Habsent).
  rewrite (generateDigest_fresh_result _ _ _ _ _ _ Habsent). cbn [outcome fst digest].
  set (ranked := arraySort digestCompare
                   (List.filter (fun x => 0 <? x.(score))
                      (jobsWithScores JOBS preferences))).
  set (d := {| date := dateStr; items := map toDigestItem (take 10 ranked) |}).
  pose proof (digestJobs_items JOBS d) as Hproj.
  pose proof (digestJobs_in_catalog JOBS d) as Hjobs.
  assert (Hall : map toDigestItem (digestJobs JOBS (Some d)) =
                 map toDigestItem (take 10 ranked)).
  { rewrite Hproj. apply filter_all. intros item Hitem.
    apply in_map_iff in Hitem as (y & <- & Hy).
    apply In_take, In_ranked in Hy as (Hj & _).
    apply existsb_Zeqb_In. simpl. apply in_map. exact Hj. }
  split; [rewrite Hall; reflexivity|].
  intros x Hx. split; [exact (Hjobs x Hx)|].
  assert (Hitem : In (toDigestItem x) (map toDigestItem (take 10 ranked)))
    by (rewrite <- Hall; apply in_map; exact Hx).
  apply in_map_iff in Hitem as (y & Heq & Hy).
  apply In_take, In_ranked in Hy as (Hj & Hscore & _).
  injection Heq as Hid Hsc.
  rewrite <- (NoDup_ids_inj JOBS (job y) (job x) Hnd Hj (Hjobs x Hx) Hid).
  congruence.
Qed.

(** ** The keys of the store *)

Example getTodayDigestKey_sample :
  getTodayDigestKey 2026 0 5 = ("jobTrackerDigest_2026-01-05", "2026-01-05") /\
  getTodayDigestKey 2026 11 31 = ("jobTrackerDigest_2026-12-31", "2026-12-31").
Proof. split; reflexivity. Qed.

Lemma numberToString_inj (a b : Z) :
  0 <= a -> 0 <= b -> numberToString a = numberToString b -> a = b.
Proof.
  unfold numberToString. intros Ha Hb H.
  assert (Hnonnil : forall n, N.to_uint n <> Decimal.Nil).
  { intros [|p]; [discriminate | apply DecimalPos.Unsigned.to_uint_nonnil]. }
  apply (f_equal NilZero.uint_of_string) in H.
  rewrite !NilZero.usu in H by apply Hnonnil.
  injection H as H. apply DecimalN.Unsigned.to_uint_inj in H. lia.
Qed.

Lemma two_digits_table :
  forallb (fun a =>
     Nat.eqb (String.length (padStart2 (numberToString (Z.of_nat a)))) 2 &&
     forallb (fun b =>
        implb (String.eqb (padStart2 (numberToString (Z.of_nat a)))
                          (padStart2 (numberToString (Z.of_nat b))))
              (Nat.eqb a b))
       (seq 0 100))
    (seq 0 100) = true.
Proof. vm_compute. reflexivity. Qed.

Lemma two_digits (n : Z) :
  0 <= n < 100 -> String.length (padStart2 (numberToString n)) = 2%nat.
Proof.
  intros Hn. pose proof two_digits_table as T.
  rewrite forallb_forall in T. specialize (T (Z.to_nat n)).
  rewrite Z2Nat.id in T by lia.
  assert (Hin : In (Z.to_nat n) (seq 0 100)) by (apply in_seq; lia).
  apply T, andb_true_iff in Hin as [Hlen _]. apply Nat.eqb_eq. exact Hlen.
Qed.

Lemma two_digits_inj (a b : Z) :
  0 <= a < 100 -> 0 <= b < 100 ->
  padStart2 (numberToString a) = padStart2 (numberToString b) -> a = b.
Proof.
  intros Ha Hb H. pose proof two_digits_table as T.
  rewrite forallb_forall in T. specialize (T (Z.to_nat a)).
  rewrite Z2Nat.id in T by lia.
  assert (Hina : In (Z.to_nat a) (seq 0 100)) by (apply in_seq; lia).
  apply T, andb_true_iff in Hina as [_ Hall].
  rewrite forallb_forall in Hall. specialize (Hall (Z.to_nat b)).
  rewrite Z2Nat.id in Hall by lia.
  assert (Hinb : In (Z.to_nat b) (seq 0 100)) by (apply in_seq; lia).
  apply Hall in Hinb. rewrite H, String.eqb_refl in Hinb. simpl in Hinb.
  apply Nat.eqb_eq in Hinb. lia.
Qed.

Lemma append_length (a b : string) :
  String.length (a +:+ b) = (String.length a + String.length b)%nat.
Proof. induction a; unfold_append; [reflexivity | congruence]. Qed.

Lemma append_inj_tail (a a' b b' : string) :
  String.length b = String.length b' ->
  a +:+ b = a' +:+ b' -> a = a' /\ b = b'.
Proof.
  revert a'. induction a as [|c a IH]; intros [|c' a'] Hlen H.
  - auto.
  - exfalso. apply (f_equal String.length) in H.
    rewrite append_nil_l, append_cons in H. simpl in H.
    rewrite append_length in H. lia.
  - exfalso. apply (f_equal String.length) in H.
    rewrite append_nil_l, append_cons in H. simpl in H.
    rewrite append_length in H. lia.
  - rewrite !append_cons in H. injection H as -> H.
    destruct (IH a' Hlen H) as [-> ->]. auto.
Qed.

(** X24. Distinct calendar days have distinct digest keys: for years from
    0 on, month indices 0 to 11 and days 1 to 31, the key determines the
    year, the month and the day, and it is the prefix "jobTrackerDigest_"
    followed by the date text. *)
Theorem getTodayDigestKey_injective (y m d y' m' d' : Z) :
  0 <= y -> 0 <= m <= 11 -> 1 <= d <= 31 ->
  0 <= y' -> 0 <= m' <= 11 -> 1 <= d' <= 31 ->
  (getTodayDigestKey y m d).1 = (getTodayDigestKey y' m' d').1 ->
  y = y' /\ m = m' /\ d = d'.
Proof.
  intros Hy Hm Hd Hy' Hm' Hd'. unfold getTodayDigestKey. cbv zeta. simpl fst.
  intros H. apply (inj (String.app "jobTrackerDigest_")) in H.
  pose proof (two_digits (m + 1)) as Lm. pose proof (two_digits (m' + 1)) as Lm'.
  pose proof (two_digits d) as Ld. pose proof (two_digits d') as Ld'.
  apply append_inj_tail in H as [Hyear H].
  2:{ rewrite !append_length, Lm, Lm', Ld, Ld' by lia. reflexivity. }
  apply (inj (String.app "-")) in H.
  apply append_inj_tail in H as [Hmonth H].
  2:{ rewrite !append_length, Ld, Ld' by lia. reflexivity. }
  apply (inj (String.app "-")) in H.
  apply numberToString_inj in Hyear; [|lia..].
  apply two_digits_inj in Hmonth; [|lia..].
  apply two_digits_inj in H; [|lia..].
  lia.
Qed.

Lemma generateDigest_frame (JOBS : list Job) (digestKey dateStr : string)
    (preferences : Preferences) (hasPrefs : bool) (st : DigestPage)
    (storage : gmap string Stored) (k : string) :
  k <> digestKey ->
  (outcome (generateDigest JOBS digestKey dateStr preferences hasPrefs st storage)).2
    !! k = storage !! k.
Proof.
  intros Hk. unfold generateDigest, generateDigestBody.
  destruct hasPrefs; simpl; [|reflexivity].
  destruct (storage !! digestKey) as [[]|]; simpl; try reflexivity;
    rewrite computeDigest_result; simpl;
    apply lookup_insert_ne; congruence.
Qed.

Lemma digest_key_apart (y m d : Z) :
  (getTodayDigestKey y m d).1 <> savedJobsKey /\
  (getTodayDigestKey y m d).1 <> statusKey.
Proof.
  unfold getTodayDigestKey, savedJobsKey, statusKey. cbv zeta. simpl fst.
  split; intros H; unfold_append_in H; discriminate H.
Qed.

(** X25. The three records of the store do not interfere.  Each handler
    writes under its own key only, and the digest key of any date differs
    from the keys of the saved list and of the status map; so generating a
    digest or changing a status never alters the saved list a reload gives
    back, and saving a job or changing a status never alters the day's
    stored snapshot. *)
Theorem stores_do_not_interfere (JOBS : list Job) (y m d : Z) (dateStr : string)
    (preferences : Preferences) (hasPrefs : bool) (st : DigestPage)
    (storage : gmap string Stored) (saved prev : list Z) (id jobId : Z)
    (newStatus : JobStatus) (now : string) (statuses : gmap Z JobStatusRecord) :
  let key := (getTodayDigestKey y m d).1 in
  let generated :=
    (outcome (generateDigest JOBS key dateStr preferences hasPrefs st storage)).2 in
  let savedTo := (handleSaveJob id prev storage).2 in
  let changed := (handleChangeStatus jobId newStatus now statuses storage).2 in
  (forall k, k <> key -> generated !! k = storage !! k) /\
  (forall k, k <> savedJobsKey -> savedTo !! k = storage !! k) /\
  (forall k, k <> statusKey -> changed !! k = storage !! k) /\
  loadSavedJobs saved generated = loadSavedJobs saved storage /\
  loadSavedJobs saved changed = loadSavedJobs saved storage /\
  storedSnapshot key savedTo = storedSnapshot key storage /\
  storedSnapshot key changed = storedSnapshot key storage.
Proof.
  intros key generated savedTo changed.
  destruct (digest_key_apart y m d) as [Hsaved Hstatus]. fold key in Hsaved, Hstatus.
  assert (Hkeys : savedJobsKey <> statusKey) by discriminate.
  assert (Fg : forall k, k <> key -> generated !! k = storage !! k)
    by (intros k Hk; apply generateDigest_frame; exact Hk).
  assert (Fs : forall k, k <> savedJobsKey -> savedTo !! k = storage !! k).
  { intros k Hk. subst savedTo. unfold handleSaveJob.
    destruct (existsb (Z.eqb id) prev); simpl; [reflexivity|].
    apply lookup_insert_ne. congruence. }
  assert (Fc : forall k, k <> statusKey -> changed !! k = storage !! k).
  { intros k Hk. subst changed. unfold handleChangeStatus. simpl.
    apply lookup_insert_ne. congruence. }
  split; [exact Fg|]. split; [exact Fs|]. split; [exact Fc|].
  unfold loadSavedJobs, storedSnapshot.
  rewrite (Fg savedJobsKey), (Fc savedJobsKey), (Fs key), (Fc key) by congruence.
  repeat split.
Qed.

(* ===================================================================== *)
(** * The further statements at work on sample data                       *)
(* ===================================================================== *)

Lemma splitCommaSeparated_tokens_sample :
  "react" <> "" /\ toLowerCase "react" = "react" /\ trim "react" = "react" /\
  ~ In ","%char (list_ascii_of_string "react").
Proof.
  apply (splitCommaSeparated_tokens " React , ,SQL" "react").
  left. reflexivity.
Defined.

Lemma computeMatchScore_no_preferences_sample :
  computeMatchScore sampleJob (setMinMatchScore 80 defaultPreferences) =
    (if sampleJob.(postedDaysAgo) <=? 2 then 5 else 0) +
    (if String.eqb sampleJob.(source) "LinkedIn" then 5 else 0) /\
  computeMatchScore sampleJob (setMinMatchScore 80 defaultPreferences) <= 10.
Proof.
  apply (computeMatchScore_no_preferences sampleJob
           (setMinMatchScore 80 defaultPreferences)).
  reflexivity.
Defined.

Lemma computeMatchScore_extremes_sample :
  points Recency <= computeMatchScore sampleJob defaultPreferences.
Proof.
  destruct (computeMatchScore_extremes sampleJob defaultPreferences) as (_ & _ & H).
  apply H. reflexivity.
Defined.

Lemma computeMatchScore_ignores_case_sample :
  computeMatchScore sampleJob
    {| roleKeywords := "react"; preferredLocations := []; preferredModes := [];
       experienceLevel := None; prefSkillsText := "sql"; minMatchScore := 40 |} =
  computeMatchScore
    {| id := 1; title := "REACT DEVELOPER"; company := "Acme";
       location := "Pune"; mode := Remote; experience := Exp1to3;
       salaryRange := "12 LPA"; source := "LinkedIn"; skills := ["react"; "sql"];
       description := "BUILD Dashboards"; postedDaysAgo := 1;
       applyUrl := "https://example.com/1" |}
    {| roleKeywords := "React"; preferredLocations := []; preferredModes := [];
       experienceLevel := None; prefSkillsText := "SQL"; minMatchScore := 10 |}.
Proof.
  apply computeMatchScore_ignores_case; reflexivity.
Defined.

Lemma toggleMode_score_sample :
  computeMatchScore sampleJob (toggleMode Remote defaultPreferences) =
  computeMatchScore sampleJob defaultPreferences + 10.
Proof.
  destruct (toggleMode_score sampleJob defaultPreferences) as [Hon _].
  apply Hon. intros [].
Defined.

Lemma toggleMode_membership_sample :
  toggleMode Remote (toggleMode Remote defaultPreferences) = defaultPreferences /\
  List.NoDup (toggleMode Hybrid (toggleMode Remote defaultPreferences)).(preferredModes).
Proof.
  destruct (toggleMode_membership Remote defaultPreferences) as (_ & _ & _ & Hback).
  destruct (toggleMode_membership Hybrid (toggleMode Remote defaultPreferences))
    as (_ & _ & Hnd & _).
  split.
  - apply Hback. intros [].
  - apply Hnd. constructor; [intros [] | constructor].
Defined.


Lemma filteredJobs_provenance_sample :
  List.NoDup
    (map (fun x => x.(job).(id))
       (filteredJobs (jobsWithScores [staleJob; sampleJob] punePreferences)
          noFilters true true punePreferences ∅)).
Proof.
  destruct (filteredJobs_provenance [staleJob; sampleJob] punePreferences
              noFilters true true ∅) as (_ & _ & Hnd & _).
  apply Hnd. constructor; [intros [H|[]]; discriminate H|].
  constructor; [intros []|constructor].
Defined.

Lemma threshold_monotone_sample :
  filteredJobs (jobsWithScores [staleJob; sampleJob]
                  (setMinMatchScore 0 punePreferences))
    noFilters true true (setMinMatchScore 0 punePreferences) ∅ =
  filteredJobs (jobsWithScores [staleJob; sampleJob]
                  (setMinMatchScore 0 punePreferences))
    noFilters false true (setMinMatchScore 0 punePreferences) ∅.
Proof.
  destruct (threshold_monotone [staleJob; sampleJob]
              (setMinMatchScore 0 punePreferences) noFilters true true ∅)
    as [_ Hzero].
  apply Hzero. simpl. lia.
Defined.

Lemma status_views_partition_sample :
  In {| job := sampleJob; score := 25 |}
     (filteredJobs (jobsWithScores [staleJob; sampleJob] punePreferences)
        (updateStatus (Some Applied) noFilters) false true punePreferences
        {[ 1 := {| status := Applied; updatedAt := "2026-01-15T09:00:00.000Z" |} ]}) /\
  ~ In {| job := sampleJob; score := 25 |}
       (filteredJobs (jobsWithScores [staleJob; sampleJob] punePreferences)
          (updateStatus (Some NotApplied) noFilters) false true punePreferences
          {[ 1 := {| status := Applied; updatedAt := "2026-01-15T09:00:00.000Z" |} ]}).
Proof.
  destruct (status_views_partition
              (jobsWithScores [staleJob; sampleJob] punePreferences) true
              punePreferences
              {[ 1 := {| status := Applied; updatedAt := "2026-01-15T09:00:00.000Z" |} ]}
              {| job := sampleJob; score := 25 |}) as [Hview _].
  - right. left. reflexivity.
  - split.
    + apply Hview. reflexivity.
    + intros H. apply Hview in H. discriminate H.
Defined.

Lemma handleChangeStatus_lookup_sample :
  statusOf (handleChangeStatus 1 Applied "2026-01-15T09:00:00.000Z" ∅ ∅).1 sampleJob
    = Applied /\
  statusOf (handleChangeStatus 1 Applied "2026-01-15T09:00:00.000Z" ∅ ∅).1 staleJob
    = statusOf ∅ staleJob.
Proof.
  destruct (handleChangeStatus_lookup 1 Applied "2026-01-15T09:00:00.000Z" ∅ ∅
              sampleJob) as (Hsame & _).
  destruct (handleChangeStatus_lookup 1 Applied "2026-01-15T09:00:00.000Z" ∅ ∅
              staleJob) as (_ & Hother & _).
  split; [apply Hsame; reflexivity | apply Hother; discriminate].
Defined.

Lemma locations_options_sample :
  filteredJobs (jobsWithScores [staleJob; sampleJob] punePreferences)
    {| keyword := ""; f_location := "Pune"; f_mode := None; f_experience := None;
       f_source := ""; sort := latest; f_status := None |}
    false true punePreferences ∅ <> [].
Proof.
  destruct (locations_options [staleJob; sampleJob]) as (_ & _ & _ & Hnonempty).
  apply Hnonempty. right. left. reflexivity.
Defined.

Lemma savedJobs_spec_sample :
  (length (savedJobs [staleJob; sampleJob] [1%Z; 7%Z]) <= length [1%Z; 7%Z])%nat.
Proof.
  destruct (savedJobs_spec [staleJob; sampleJob] [1; 7]) as (_ & _ & Hlen).
  apply Hlen. constructor; [intros [H|[]]; discriminate H|].
  constructor; [intros []|constructor].
Defined.

Lemma handleSaveJob_savedJobs_sample :
  In sampleJob
     (savedJobs [staleJob; sampleJob] (handleSaveJob sampleJob.(id) [2] ∅).1).
Proof.
  destruct (handleSaveJob_savedJobs [staleJob; sampleJob] [2] ∅ sampleJob) as [H _].
  - right. left. reflexivity.
  - exact H.
Defined.

Lemma savedJobIds_survive_reload_sample :
  loadSavedJobs []
    (savedRun [ClickSave 3; MountLoad; ClickSave 1; ClickSave 3] ([], ∅)).2 =
  (savedRun [ClickSave 3; MountLoad; ClickSave 1; ClickSave 3] ([], ∅)).1.
Proof.
  destruct (savedJobIds_survive_reload [] ∅
              [ClickSave 3; MountLoad; ClickSave 1; ClickSave 3]) as [H _].
  - reflexivity.
  - exact H.
Defined.

Lemma generateDigest_throws_sample :
  generateDigest [staleJob; sampleJob] todayKey today punePreferences true
    initialDigestPage {[ todayKey := Unparsable ]} =
  Thrown (initialDigestPage, {[ todayKey := Unparsable ]}) /\
  loadDigest todayKey today initialDigestPage {[ todayKey := Unparsable ]} =
  initialDigestPage.
Proof.
  apply (generateDigest_throws [staleJob; sampleJob] todayKey today punePreferences
           initialDigestPage {[ todayKey := Unparsable ]}).
  reflexivity.
Defined.

Lemma generateDigest_then_reload_sample :
  let after :=
    outcome (generateDigest [staleJob; sampleJob] todayKey today punePreferences
               true initialDigestPage ∅) in
  loadDigest todayKey today initialDigestPage after.2 = after.1.
Proof.
  intros after.
  apply (generateDigest_then_reload [staleJob; sampleJob] todayKey today
           punePreferences initialDigestPage ∅ after.1 after.2).
  reflexivity.
Defined.

Lemma fresh_snapshot_items_sample :
  exists snapshot,
    storedSnapshot todayKey
      (outcome (generateDigest [staleJob; sampleJob] todayKey today punePreferences
                  true initialDigestPage ∅)).2 = Some snapshot /\
    (forall item, In item snapshot ->
       exists j, In j [staleJob; sampleJob] /\ item.(jobId) = j.(id) /\
                 item.(itemScore) = computeMatchScore j punePreferences /\
                 1 <= item.(itemScore) <= 100) /\
    StronglySorted (fun a b => b.(itemScore) <= a.(itemScore)) snapshot /\
    (List.NoDup (map id [staleJob; sampleJob]) -> List.NoDup (map jobId snapshot)).
Proof.
  apply (fresh_snapshot_items [staleJob; sampleJob] todayKey today punePreferences
           initialDigestPage ∅).
  unfold snapshotAbsent. rewrite lookup_empty. exact I.
Defined.

Lemma fresh_snapshot_top_ten_sample :
  exists snapshot,
    storedSnapshot todayKey
      (outcome (generateDigest [staleJob; sampleJob] todayKey today punePreferences
                  true initialDigestPage ∅)).2 = Some snapshot /\
    forall j, In j [staleJob; sampleJob] -> 0 < computeMatchScore j punePreferences ->
      In {| jobId := j.(id); itemScore := computeMatchScore j punePreferences |}
         snapshot \/
      (length snapshot = 10%nat /\
       forall item, In item snapshot ->
                    computeMatchScore j punePreferences <= item.(itemScore)).
Proof.
  apply (fresh_snapshot_top_ten [staleJob; sampleJob] todayKey today punePreferences
           initialDigestPage ∅).
  unfold snapshotAbsent. rewrite lookup_empty. exact I.
Defined.

Lemma digestJobs_projection_sample :
  map toDigestItem
    (digestJobs [staleJob; sampleJob]
       (Some {| date := today;
                items := [{| jobId := 2; itemScore := 15 |};
                          {| jobId := 9; itemScore := 50 |}] |})) =
  [{| jobId := 2; itemScore := 15 |}].
Proof.
  destruct (digestJobs_projection [staleJob; sampleJob]
              {| date := today;
                 items := [{| jobId := 2; itemScore := 15 |};
                           {| jobId := 9; itemScore := 50 |}] |}) as [H _].
  rewrite H. reflexivity.
Defined.

Lemma digestJobs_after_generation_sample :
  let after :=
    outcome (generateDigest [staleJob; sampleJob] todayKey today punePreferences
               true initialDigestPage ∅) in
  Some (map toDigestItem (digestJobs [staleJob; sampleJob] after.1.(digest))) =
    storedSnapshot todayKey after.2.
Proof.
  intros after.
  destruct (digestJobs_after_generation [staleJob; sampleJob] todayKey today
              punePreferences initialDigestPage ∅) as [H _].
  - constructor; [intros [H|[]]; discriminate H|].
    constructor; [intros []|constructor].
  - unfold snapshotAbsent. rewrite lookup_empty. exact I.
  - exact H.
Defined.

Lemma getTodayDigestKey_injective_sample :
  (getTodayDigestKey 2026 0 5).1 <> (getTodayDigestKey 2026 0 6).1.
Proof.
  intros H.
  apply (getTodayDigestKey_injective 2026 0 5 2026 0 6) in H; lia.
Defined.

Lemma stores_do_not_interfere_sample :
  loadSavedJobs []
    (outcome (generateDigest [staleJob; sampleJob]
                (getTodayDigestKey 2026 0 15).1 today punePreferences true
                initialDigestPage {[ savedJobsKey := IdArray [1; 2] ]})).2 = [1; 2].
Proof.
  destruct (stores_do_not_interfere [staleJob; sampleJob] 2026 0 15 today
              punePreferences true initialDigestPage
              {[ savedJobsKey := IdArray [1; 2] ]} [] [] 0 0 Applied "" ∅)
    as (_ & _ & _ & H & _).
  rewrite H. reflexivity.
Defined.
